(** * Voice-session relay of the sales coach: model and checked properties

    The backend snippets (Python: address builder, the two forwarding
    duties, the agent manager, the upstream connect step) and the
    frontend App component (TypeScript: negotiation handling, outbound
    messages, analysis trigger) are embedded as Rocq functions.
    Exceptions are a [result] type, dictionaries whose order is observable
    are association lists in insertion order, registries are [gmap]s, and
    IEEE doubles are the primitive floats. *)

From Stdlib Require Import PrimFloat Ascii String.
From stdpp Require Import base option list strings gmap.

#[local] Set Warnings "-inexact-float,-register-all".
#[local] Open Scope string_scope.

(** ** Shared string helpers *)

(** Python [sep.join(parts)] and JavaScript [parts.join(sep)] on strings. *)
Fixpoint join (sep : string) (parts : list string) : string :=
  match parts with
  | [] => ""
  | [p] => p
  | p :: rest => p +:+ sep +:+ join sep rest
  end.

(** Python [s.startswith(p)]. *)
Definition startswith (s p : string) : bool := String.prefix p s.

(** The line feed and the double quote, as one-character strings. *)
Definition LF : string := String (ascii_of_nat 10) "".
Definition DQ : string := String (ascii_of_nat 34) "".

(** * Backend (Python) *)

Module Py.

(** ** Values and exceptions *)

(** The values [json.loads] produces and the dictionaries the backend
    builds; a [PDict] lists its items in insertion order. *)
Inductive pyval : Type :=
  | PNone
  | PBool (b : bool)
  | PInt (n : Z)
  | PFloat (x : float)
  | PStr (s : string)
  | PList (items : list pyval)
  | PDict (items : list (string * pyval)).

(** The exceptions the modelled code can raise. *)
Inductive exn : Type :=
  | KeyError (key : string)
  | TypeError
  | AttributeError
  | IndexError
  | JSONDecodeError
  | ServiceError (what : string).

Inductive result (A : Type) : Type :=
  | Ok (a : A)
  | Raise (e : exn).
Arguments Ok {A} a.
Arguments Raise {A} e.

#[global] Instance result_ret : MRet result := fun A a => Ok a.
#[global] Instance result_bind : MBind result := fun A B f m =>
  match m with
  | Ok a => f a
  | Raise e => Raise e
  end.

Definition is_ok {A} (r : result A) : bool :=
  match r with Ok _ => true | Raise _ => false end.

(** ** Dictionaries *)

Section Dict.
Context {V : Type}.

(** [d.get(k)] as an option. *)
Fixpoint dict_lookup (d : list (string * V)) (k : string) : option V :=
  match d with
  | [] => None
  | (k', v) :: rest => if String.eqb k' k then Some v else dict_lookup rest k
  end.

(** [d[k] = v]: replaces in place, or appends a new last item. *)
Fixpoint dict_setitem (d : list (string * V)) (k : string) (v : V)
  : list (string * V) :=
  match d with
  | [] => [(k, v)]
  | (k', v') :: rest =>
      if String.eqb k' k then (k', v) :: rest
      else (k', v') :: dict_setitem rest k v
  end.

End Dict.

(** [v[k]] for a string key [k]. *)
Definition getitem (v : pyval) (k : string) : result pyval :=
  match v with
  | PDict items =>
      match dict_lookup items k with
      | Some x => Ok x
      | None => Raise (KeyError k)
      end
  | _ => Raise TypeError
  end.

(** [v[0]]: the first item of a list, the first character of a string,
    the item under the integer key 0 of a dictionary (JSON keys are
    strings, so there is none). *)
Definition getitem0 (v : pyval) : result pyval :=
  match v with
  | PList (x :: _) => Ok x
  | PList [] => Raise IndexError
  | PStr (String c _) => Ok (PStr (String c ""))
  | PStr "" => Raise IndexError
  | PDict _ => Raise (KeyError "0")
  | _ => Raise TypeError
  end.

(** [v.get(k, default)]; only dictionaries have the method. *)
Definition dict_get (v : pyval) (k : string) (dflt : pyval) : result pyval :=
  match v with
  | PDict items => Ok (default dflt (dict_lookup items k))
  | _ => Raise AttributeError
  end.

(** [v == s] for a string literal [s]. *)
Definition eq_str (v : pyval) (s : string) : bool :=
  match v with
  | PStr s' => String.eqb s' s
  | _ => false
  end.

(** ** Address builder (websocket_handler.py) *)

(** [urllib.parse.quote_plus] on the bytes of a string: the unreserved
    characters stay, a space becomes [+], every other byte is [%XX]. *)
Definition always_safe (c : ascii) : bool :=
  let n := nat_of_ascii c in
  (((65 <=? n) && (n <=? 90)) || ((97 <=? n) && (n <=? 122))
   || ((48 <=? n) && (n <=? 57))
   || (n =? 95) || (n =? 46) || (n =? 45) || (n =? 126))%nat.

Definition hex_digit (n : nat) : ascii :=
  ascii_of_nat (if n <? 10 then 48 + n else 55 + n)%nat.

Fixpoint quote_plus (s : string) : string :=
  match s with
  | "" => ""
  | String c rest =>
      (if always_safe c then String c ""
       else if (nat_of_ascii c =? 32)%nat then "+"
       else String "%" (String (hex_digit (nat_of_ascii c / 16)%nat)
                          (String (hex_digit (nat_of_ascii c mod 16)%nat) "")))
      +:+ quote_plus rest
  end.

(** [str(v)] for the values a query parameter can hold here: a string, or
    [None] when the configuration has no value for it. *)
Definition str_of (v : option string) : string := default "None" v.

(** [urllib.parse.urlencode(params)] *)
Definition urlencode (params : list (string * option string)) : string :=
  join "&" (map (fun kv => quote_plus kv.1 +:+ "=" +:+ quote_plus (str_of kv.2))
                params).

(** What the handler reads from its surroundings: the resource name, the
    configuration ([os.getenv] values, [None] when the variable is unset),
    the identifier [uuid.uuid4()] draws for this connection attempt, and
    whether [websockets.connect] succeeds for an address and an [api-key]
    header. *)
Record handler_env : Type := HandlerEnv {
  resource_name : string;
  config : gmap string (option string);
  uuid4 : string;
  accepts : string -> option string -> bool
}.

(** [config[k]] *)
Definition config_getitem (env : handler_env) (k : string)
  : result (option string) :=
  match config env !! k with
  | Some v => Ok v
  | None => Raise (KeyError k)
  end.

(** The [params] dictionary of [_build_azure_websocket_url] when control
    reaches its [return]. *)
Definition url_params (env : handler_env) (agent_id : string)
  : result (list (string * option string)) :=
  let params := [ ("api-version", Some "2025-05-01-preview");
                  ("x-ms-client-request-id", Some (uuid4 env)) ] in
  if startswith agent_id "local-agent" then
    v ← config_getitem env "model_deployment_name";
    mret (dict_setitem params "model" v)
  else
    mret (dict_setitem params "agent-id" (Some agent_id)).

Definition _build_azure_websocket_url (env : handler_env) (agent_id : string)
  : result string :=
  let base_url := "wss://" +:+ resource_name env +:+ ".cognitiveservices.azure.com" in
  let path := "/voice-agent/realtime" in
  params ← url_params env agent_id;
  mret (base_url +:+ path +:+ "?" +:+ urlencode params).

(** The two routing parameters, and those of them a dictionary carries. *)
Definition routing_keys : list string := ["model"; "agent-id"].

Definition routing_of (params : list (string * option string))
  : list (string * option string) :=
  filter (fun kv => kv.1 ∈ routing_keys) params.

(** The routing contract in the specification's words, over the pair
    (isEphemeral, modelNamePresent): a model name can be sent when one is
    present, an agent id when the agent is not Ephemeral; InvalidRouting is
    due when neither or both could be sent. *)
Definition isEphemeral (agent_id : string) : bool :=
  startswith agent_id "local-agent".

Definition modelNamePresent (env : handler_env) : bool :=
  match config env !! "model_deployment_name" with
  | Some (Some _) => true
  | _ => false
  end.

Definition neither_or_both (ephemeral model_present : bool) : bool :=
  (ephemeral && negb model_present) || (negb ephemeral && model_present).

(** ** The two forwarding duties (websocket_handler.py) *)

(** A text frame as a duty sees it: the payload it would pass on, and what
    [json.loads] makes of that payload. *)
Record frame : Type := Frame {
  text : string;
  decoded : result pyval
}.

Definition json_loads (message : frame) : result pyval := decoded message.

(** The loop both duties run: [source] holds the frames the source
    connection yields until it closes, [sent] the frames already passed to
    the destination's [send]. The loop ends with the source, or with the
    first exception. *)
Fixpoint relay_loop (wanted : string) (source sent : list frame)
  : list frame * result unit :=
  match source with
  | [] => (sent, Ok ())
  | message :: later =>
      match json_loads message with
      | Raise e => (sent, Raise e)
      | Ok data =>
          match getitem data "type" with
          | Raise e => (sent, Raise e)
          | Ok ty =>
              if eq_str ty wanted
              then relay_loop wanted later (sent ++ [message])
              else relay_loop wanted later sent
          end
      end
  end.

Definition _forward_client_to_azure (client_ws azure_ws : list frame)
  : list frame * result unit :=
  relay_loop "input_audio_buffer.append" client_ws azure_ws.

Definition _forward_azure_to_client (azure_ws client_ws : list frame)
  : list frame * result unit :=
  relay_loop "response.audio.delta" azure_ws client_ws.

(** The [type] field of a frame that decodes to an object having one. *)
Definition message_type (message : frame) : option pyval :=
  match json_loads message with
  | Ok data => match getitem data "type" with Ok ty => Some ty | Raise _ => None end
  | Raise _ => None
  end.

(** Whether a frame has the type a duty passes on. *)
Definition has_type (wanted : string) (message : frame) : bool :=
  match message_type message with
  | Some ty => eq_str ty wanted
  | None => false
  end.

(** Modelled from the spec: the classifier [Classify] is not among the
    sources. The kinds are those of the specification's component design;
    the wire types are the ones its external interfaces name (the
    specification names no wire type for the session-lifecycle kind), and
    every other type is unrecognized. *)
Inductive MessageKind : Type :=
  | AudioInputChunk
  | AudioOutputDelta
  | TranscriptionUser
  | TranscriptionAgent
  | SessionNegotiation
  | SessionLifecycle
  | Unrecognized.

Definition Classify (ty : pyval) : MessageKind :=
  match ty with
  | PStr t =>
      if String.eqb t "input_audio_buffer.append" then AudioInputChunk
      else if String.eqb t "response.audio.delta" then AudioOutputDelta
      else if String.eqb t "conversation.item.input_audio_transcription.completed"
      then TranscriptionUser
      else if String.eqb t "response.audio_transcript.done" then TranscriptionAgent
      else if String.eqb t "session.updated" then SessionNegotiation
      else if String.eqb t "session.avatar.connect" then SessionNegotiation
      else Unrecognized
  | _ => Unrecognized
  end.

(** ** Agent manager (managers.py) *)

(** [AgentManager.BASE_INSTRUCTIONS]: the triple-quoted literal, with its
    leading line break and the indentation of every line. *)
Definition BASE_INSTRUCTIONS : string :=
  LF +:+ "    CRITICAL INTERACTION GUIDELINES:"
  +:+ LF +:+ "    - You are playing the role of a CUSTOMER"
  +:+ LF +:+ "    - The user is the health insurance SELLER practicing skills"
  +:+ LF +:+ "    - Keep responses SHORT (max 3 sentences, phone style)"
  +:+ LF +:+ "    - ALWAYS stay in character - never break role"
  +:+ LF +:+ "    - Simulate natural speech: pauses, " +:+ DQ +:+ "um" +:+ DQ
             +:+ ", hesitation"
  +:+ LF +:+ "    - Show genuine human emotions appropriate to situation"
  +:+ LF +:+ "    - Ask follow-up questions naturally"
  +:+ LF +:+ "    - Avoid robotic language - speak like a real customer"
  +:+ LF +:+ "    ".

(** The provisioning client: [agents.create_agent(model, name,
    instructions, tools=[], temperature)] answers with the id of the new
    agent, or raises. *)
Definition project_client_t : Type :=
  pyval -> string -> pyval -> pyval -> result string.

Record AgentManager : Type := MkAgentManager {
  agents : gmap string pyval;
  use_azure_ai_agents : bool;
  project_client : option project_client_t
}.

(** What a creator draws from its surroundings: the first eight hex digits
    of a fresh [uuid4] and the ISO form of the current time. *)
Record draws : Type := Draws {
  hex8 : string;
  now_iso : string
}.

(** [v + s] for a string [s]: concatenation when [v] is a string. *)
Definition add_str (v : pyval) (s : string) : result pyval :=
  match v with
  | PStr s' => Ok (PStr (s' +:+ s))
  | _ => Raise TypeError
  end.

(** [scenario_data["messages"][0]["content"]] *)
Definition scenario_content (scenario_data : pyval) : result pyval :=
  messages ← getitem scenario_data "messages";
  first ← getitem0 messages;
  getitem first "content".

(** The call [create_agent] returns through: the creator it picks and the
    four arguments it passes, evaluated. *)
Inductive creator_call : Type :=
  | CallCreateAzure (scenario_id : string) (instructions model temperature : pyval)
  | CallCreateLocal (scenario_id : string) (instructions model temperature : pyval).

Definition call_instructions (c : creator_call) : pyval :=
  match c with
  | CallCreateAzure _ i _ _ | CallCreateLocal _ i _ _ => i
  end.

(** [create_agent] up to its [return]: what it computes from the scenario,
    and the call it is about to make. *)
Definition create_agent_call (self : AgentManager) (scenario_id : string)
    (scenario_data : pyval) : result creator_call :=
  scenario_instructions ← scenario_content scenario_data;
  combined_instructions ← add_str scenario_instructions BASE_INSTRUCTIONS;
  model_name ← dict_get scenario_data "model" (PStr "gpt-4o");
  parameters ← dict_get scenario_data "modelParameters" (PDict []);
  temperature ← dict_get parameters "temperature" (PFloat 0.7);
  if use_azure_ai_agents self && bool_decide (is_Some (project_client self))
  then mret (CallCreateAzure scenario_id combined_instructions model_name temperature)
  else mret (CallCreateLocal scenario_id combined_instructions model_name temperature).

Definition _create_local_agent (self : AgentManager) (d : draws)
    (scenario_id : string) (instructions model temperature max_tokens : pyval)
  : AgentManager * string :=
  let agent_id := "local-agent-" +:+ hex8 d in
  let record := PDict [ ("id", PStr agent_id);
                        ("scenario_id", PStr scenario_id);
                        ("instructions", instructions);
                        ("model", model);
                        ("temperature", temperature);
                        ("max_tokens", max_tokens);
                        ("created_at", PStr (now_iso d));
                        ("type", PStr "local") ] in
  (MkAgentManager (<[agent_id := record]> (agents self))
                  (use_azure_ai_agents self) (project_client self),
   agent_id).

Definition _create_azure_agent (self : AgentManager) (d : draws)
    (scenario_id : string) (instructions model temperature max_tokens : pyval)
  : result (AgentManager * string) :=
  let agent_name := "agent-" +:+ scenario_id +:+ "-" +:+ hex8 d in
  match project_client self with
  | None => Raise AttributeError
  | Some client =>
      agent_id ← client model agent_name instructions temperature;
      let record := PDict [ ("id", PStr agent_id);
                            ("scenario_id", PStr scenario_id);
                            ("azure_agent_id", PStr agent_id);
                            ("model", model);
                            ("temperature", temperature);
                            ("created_at", PStr (now_iso d));
                            ("type", PStr "azure") ] in
      mret (MkAgentManager (<[agent_id := record]> (agents self))
                           (use_azure_ai_agents self) (project_client self),
            agent_id)
  end.

(** Binding of the arguments of a call to the parameters both creators
    declare after [self]: [scenario_id], [instructions], [model],
    [temperature] and [max_tokens], none of them with a default. A call
    with another number of arguments raises TypeError before the body
    runs. *)
Definition bind_creator_parameters (args : list pyval)
  : result (pyval * pyval * pyval * pyval * pyval) :=
  match args with
  | [scenario_id; instructions; model; temperature; max_tokens] =>
      Ok (scenario_id, instructions, model, temperature, max_tokens)
  | _ => Raise TypeError
  end.

(** [create_agent]: the call it returns through is made with the four
    arguments of the source. *)
Definition create_agent (self : AgentManager) (d : draws) (scenario_id : string)
    (scenario_data : pyval) : result (AgentManager * string) :=
  call ← create_agent_call self scenario_id scenario_data;
  match call with
  | CallCreateAzure scenario_id instructions model temperature =>
      bound ← bind_creator_parameters
                [PStr scenario_id; instructions; model; temperature];
      let '(_, instructions, model, temperature, max_tokens) := bound in
      _create_azure_agent self d scenario_id instructions model temperature
        max_tokens
  | CallCreateLocal scenario_id instructions model temperature =>
      bound ← bind_creator_parameters
                [PStr scenario_id; instructions; model; temperature];
      let '(_, instructions, model, temperature, max_tokens) := bound in
      mret (_create_local_agent self d scenario_id instructions model
              temperature max_tokens)
  end.

(** ** Session configuration and the upstream connect step *)

(** The [session_config] literal; [scenario_instructions] is its one free
    name. *)
Definition session_config (scenario_instructions : pyval) : pyval :=
  PDict [
    ("type", PStr "session.update");
    ("session", PDict [
       ("modalities", PList [PStr "text"; PStr "audio"]);
       ("turn_detection", PDict [("type", PStr "azure_semantic_vad")]);
       ("input_audio_noise_reduction",
          PDict [("type", PStr "azure_deep_noise_suppression")]);
       ("input_audio_echo_cancellation",
          PDict [("type", PStr "server_echo_cancellation")]);
       ("avatar", PDict [("character", PStr "lisa");
                         ("style", PStr "casual-sitting")]);
       ("voice", PDict [("name", PStr "en-US-Ava:DragonHDLatestNeural")]);
       ("instructions", scenario_instructions);
       ("temperature", PFloat 0.8);
       ("max_response_output_tokens", PStr "inf") ]) ].

(** The keys of the literal's group on AI behaviour; the other session
    keys are its audio, voice and avatar parameters. *)
Definition behaviour_keys : list string :=
  ["instructions"; "temperature"; "max_response_output_tokens"].

Definition session_of (message : pyval) : list (string * pyval) :=
  match getitem message "session" with
  | Ok (PDict fields) => fields
  | _ => []
  end.

(** Modelled from the spec: the sender [_send_session_update(azure_ws,
    instructions, temperature)] is not among the sources, only its two
    calls are. Following the specification's BuildConfigMessage on the
    [session_config] literal: given instructions (an Ephemeral agent), the
    message embeds them and the temperature; given [None] (a Persistent
    agent), it carries the audio, voice and avatar parameters only. The
    result is the list of messages sent on [azure_ws]. *)
Definition _send_session_update (azure_ws : list pyval)
    (instructions temperature : pyval) : list pyval :=
  let fields := session_of (session_config instructions) in
  let session :=
    match instructions with
    | PNone => filter (fun kv => kv.1 ∉ behaviour_keys) fields
    | _ => dict_setitem fields "temperature" temperature
    end in
  azure_ws ++ [PDict [("type", PStr "session.update"); ("session", PDict session)]].

(** Modelled from the spec: [AgentManager.get_agent] is not among the
    sources; following GetAgent, it answers with the registered record, or
    with [None] for an unknown id. *)
Definition get_agent (self : AgentManager) (agent_id : string) : pyval :=
  default PNone (agents self !! agent_id).

(** [_connect_to_azure]: the address connected to and the messages sent on
    the new connection. *)
Definition _connect_to_azure (env : handler_env) (agent_manager : AgentManager)
    (agent_id : string) : result (string * list pyval) :=
  let agent_data := get_agent agent_manager agent_id in
  url ← _build_azure_websocket_url env agent_id;
  api_key ← config_getitem env "azure_openai_api_key";
  if negb (accepts env url api_key) then Raise (ServiceError "connect")
  else
    let azure_ws : list pyval := [] in
    kind ← getitem agent_data "type";
    if eq_str kind "local" then
      instructions ← getitem agent_data "instructions";
      temperature ← getitem agent_data "temperature";
      mret (url, _send_session_update azure_ws instructions temperature)
    else
      temperature ← getitem agent_data "temperature";
      mret (url, _send_session_update azure_ws PNone temperature).

(** The four settings every configuration message is to enable: text and
    audio modalities, semantic voice-activity detection, deep noise
    suppression and server-side echo cancellation. *)
Definition enables_defaults (message : pyval) : Prop :=
  let session := session_of message in
  dict_lookup session "modalities" = Some (PList [PStr "text"; PStr "audio"])
  ∧ dict_lookup session "turn_detection"
    = Some (PDict [("type", PStr "azure_semantic_vad")])
  ∧ dict_lookup session "input_audio_noise_reduction"
    = Some (PDict [("type", PStr "azure_deep_noise_suppression")])
  ∧ dict_lookup session "input_audio_echo_cancellation"
    = Some (PDict [("type", PStr "server_echo_cancellation")]).

(** The number of occurrences of a character in a string. *)
Fixpoint count_char (c : ascii) (s : string) : nat :=
  match s with
  | "" => 0
  | String x rest => (if Ascii.eqb x c then 1 else 0) + count_char c rest
  end.

End Py.

(** * Frontend (TypeScript) *)

Module Js.

(** ** Values *)

(** A message as [JSON.parse] delivers it, and [undefined] for what a
    property read finds missing. *)
Inductive jsval : Type :=
  | JUndefined
  | JNull
  | JBool (b : bool)
  | JNum (x : float)
  | JStr (s : string)
  | JArr (items : list jsval)
  | JObj (props : list (string * jsval)).

(** ToBoolean: [undefined], [null], [false], zero, NaN and the empty string
    are falsy. *)
Definition truthy (v : jsval) : bool :=
  match v with
  | JUndefined | JNull => false
  | JBool b => b
  | JNum x => negb (PrimFloat.eqb x 0 || negb (PrimFloat.eqb x x))
  | JStr s => negb (String.eqb s "")
  | JArr _ | JObj _ => true
  end.

Fixpoint own_property (props : list (string * jsval)) (k : string) : jsval :=
  match props with
  | [] => JUndefined
  | (k', v) :: rest => if String.eqb k' k then v else own_property rest k
  end.

(** [v.k] on a value that is neither [null] nor [undefined], for the keys
    the component reads (none of them is a built-in property of strings,
    arrays, numbers or booleans). *)
Definition prop (v : jsval) (k : string) : jsval :=
  match v with
  | JObj props => own_property props k
  | _ => JUndefined
  end.

Definition nullish (v : jsval) : bool :=
  match v with
  | JUndefined | JNull => true
  | _ => false
  end.

(** [v.k]: a TypeError ([None]) on [null] and [undefined]. *)
Definition member (v : jsval) (k : string) : option jsval :=
  if nullish v then None else Some (prop v k).

(** [v?.k] *)
Definition opt (v : jsval) (k : string) : jsval :=
  if nullish v then JUndefined else prop v k.

(** [a || b] *)
Definition js_or (a b : jsval) : jsval := if truthy a then a else b.

(** [v === s] and [v !== s] for a string literal [s]. *)
Definition strict_eq (v : jsval) (s : string) : bool :=
  match v with
  | JStr s' => String.eqb s' s
  | _ => false
  end.

(** ** Negotiation handling (App) *)

(** The calls into the media-negotiation hook. *)
Inductive rtc_call : Type :=
  | SetupWebRTC (servers username credential : jsval)
  | HandleAnswer (msg : jsval).

Definition handleWebRTCMessage (msg : jsval) : option (list rtc_call) :=
  ty ← member msg "type";
  if strict_eq ty "session.updated" then
    let session := prop msg "session" in
    let servers :=
      js_or (js_or (opt (opt session "avatar") "ice_servers")
                   (opt (opt session "rtc") "ice_servers"))
            (opt session "ice_servers") in
    let username :=
      js_or (js_or (js_or (opt (opt session "avatar") "username")
                          (opt (opt session "avatar") "ice_username"))
                   (opt (opt session "rtc") "ice_username"))
            (opt session "ice_username") in
    let credential :=
      js_or (js_or (js_or (opt (opt session "avatar") "credential")
                          (opt (opt session "avatar") "ice_credential"))
                   (opt (opt session "rtc") "ice_credential"))
            (opt session "ice_credential") in
    if truthy servers then Some [SetupWebRTC servers username credential]
    else Some []
  else if truthy (js_or (js_or (prop msg "server_sdp") (prop msg "sdp"))
                        (prop msg "answer"))
          && negb (strict_eq ty "session.update")
  then Some [HandleAnswer msg]
  else Some [].

(** The fallback chain written out as an ordered list of candidates: the
    first truthy one, or the last one when none is truthy. *)
Fixpoint first_truthy (candidates : list jsval) : jsval :=
  match candidates with
  | [] => JUndefined
  | [v] => v
  | v :: rest => if truthy v then v else first_truthy rest
  end.

Definition servers_chain (session : jsval) : list jsval :=
  [ opt (opt session "avatar") "ice_servers";
    opt (opt session "rtc") "ice_servers";
    opt session "ice_servers" ].

Definition username_chain (session : jsval) : list jsval :=
  [ opt (opt session "avatar") "username";
    opt (opt session "avatar") "ice_username";
    opt (opt session "rtc") "ice_username";
    opt session "ice_username" ].

Definition credential_chain (session : jsval) : list jsval :=
  [ opt (opt session "avatar") "credential";
    opt (opt session "avatar") "ice_credential";
    opt (opt session "rtc") "ice_credential";
    opt session "ice_credential" ].

(** ** Outbound messages (App) *)

Section Outbound.
(** [send] comes from the realtime hook, which is not among the sources:
    it is a parameter, acting on whatever the hook's channel is. *)
Context {Chan : Type} (send : jsval -> Chan -> Chan).

Definition sendOffer (sdp : string) : Chan -> Chan :=
  send (JObj [("type", JStr "session.avatar.connect"); ("client_sdp", JStr sdp)]).

Definition sendAudioChunk (base64 : string) : Chan -> Chan :=
  send (JObj [("type", JStr "input_audio_buffer.append"); ("audio", JStr base64)]).

(** What the two client-side producers hand to their callbacks: the
    negotiation hook an offer, the recorder an audio chunk. *)
Inductive produced : Type :=
  | Offer (sdp : string)
  | Chunk (base64 : string).

Definition deliver (p : produced) : Chan -> Chan :=
  match p with
  | Offer sdp => sendOffer sdp
  | Chunk base64 => sendAudioChunk base64
  end.

(** The callbacks run one after the other, in the order of production. *)
Definition deliver_all (ps : list produced) (ch : Chan) : Chan :=
  foldl (fun ch p => deliver p ch) ch ps.
End Outbound.

(** The message each product travels as. *)
Definition outbound_message (p : produced) : jsval :=
  match p with
  | Offer sdp => JObj [("type", JStr "session.avatar.connect"); ("client_sdp", JStr sdp)]
  | Chunk base64 => JObj [("type", JStr "input_audio_buffer.append"); ("audio", JStr base64)]
  end.

(** A channel that keeps what was sent, in order. *)
Definition trace_send (m : jsval) (ch : list jsval) : list jsval :=
  (ch ++ [m])%list.

(** ** Analysis trigger (App) and its control (ChatPanel) *)

(** Modelled from the spec: the declarations of types.ts are not among the
    sources. A turn has a role and a text; the components read [id],
    [role] and [content] of a message. *)
Record Message : Type := MkMessage {
  id : string;
  role : string;
  content : string
}.

Section Analysis.
(** Audio segments and score reports are opaque to the component. *)
Context {Audio Assessment : Type}.

(** What [handleAnalyze] reads when it runs: the selected scenario
    ([null] is [None]), the results of [getRecordings()] and
    [getAudioRecording()], and the outcome of the request
    [api.analyzeConversation] makes: [None] when it rejects, and otherwise
    the value it resolves to, a report or [null] (the inner [None]). *)
Record analyze_env : Type := AnalyzeEnv {
  selectedScenario : option string;
  conversation : list Message;
  audio : list Audio;
  audioData : list Audio;
  analyzeConversation :
    string -> string -> list Audio -> list Message -> option (option Assessment)
}.

(** What [handleAnalyze] does, in order. *)
Inductive effect : Type :=
  | SetShowLoading (b : bool)
  | ApiAnalyzeConversation (scenario transcript : string)
      (segments : list Audio) (turns : list Message)
  | SetAssessment (a : option Assessment)
  | SetShowAssessment (b : bool)
  | ConsoleError.

(** [`${m.role}: ${m.content}`] *)
Definition render (m : Message) : string := role m +:+ ": " +:+ content m.

Definition handleAnalyze (env : analyze_env) : list effect :=
  match selectedScenario env with
  | None | Some "" => []
  | Some scenario =>
      if bool_decide (length (conversation env) = 0) then []
      else
        let transcript := join LF (map render (conversation env)) in
        let segments := (audioData env ++ audio env)%list in
        ([SetShowLoading true;
          ApiAnalyzeConversation scenario transcript segments (conversation env)]
         ++ match analyzeConversation env scenario transcript segments
                    (conversation env) with
            | Some result => [SetAssessment result; SetShowAssessment true]
            | None => [ConsoleError]
            end
         ++ [SetShowLoading false])%list
  end.

(** The state of App that the analysis touches. *)
Record app_state : Type := AppState {
  showLoading : bool;
  showAssessment : bool;
  assessment : option Assessment
}.

Definition apply_effect (st : app_state) (e : effect) : app_state :=
  match e with
  | SetShowLoading b => AppState b (showAssessment st) (assessment st)
  | SetAssessment a => AppState (showLoading st) (showAssessment st) a
  | SetShowAssessment b => AppState (showLoading st) b (assessment st)
  | ApiAnalyzeConversation _ _ _ _ | ConsoleError => st
  end.

Definition run_effects (st : app_state) (es : list effect) : app_state :=
  foldl apply_effect st es.

(** The requests to the analysis collaborator among some effects, as
    (transcript, turns) pairs. *)
Definition analysis_requests (es : list effect) : list (string * list Message) :=
  omap (fun e => match e with
                 | ApiAnalyzeConversation _ transcript _ turns =>
                     Some (transcript, turns)
                 | _ => None
                 end) es.

(** The properties of ChatPanel that decide its Analyze button, and the
    button as rendered: [disabled={!canAnalyze}], [onClick={onAnalyze}]. *)
Record chat_props : Type := ChatProps {
  messages : list Message;
  canAnalyze : bool;
  onAnalyze : list effect
}.

Definition analyze_disabled (props : chat_props) : bool := negb (canAnalyze props).

(** App renders ChatPanel with [canAnalyze={messages.length > 0}] and
    [onAnalyze={handleAnalyze}]. *)
Definition App_chat_props (msgs : list Message) (env : analyze_env) : chat_props :=
  ChatProps msgs (bool_decide (0 < length msgs)) (handleAnalyze env).

(** A click on the Analyze button: a disabled button runs no handler. *)
Definition click_analyze (props : chat_props) : list effect :=
  if analyze_disabled props then [] else onAnalyze props.
End Analysis.

(** The transcript in the specification's words: one line per turn, role
    first, the lines separated by line feeds. *)
Inductive transcript_of : list Message -> string -> Prop :=
  | transcript_nil : transcript_of [] ""
  | transcript_one m : transcript_of [m] (role m +:+ ": " +:+ content m)
  | transcript_more m m' ms t :
      transcript_of (m' :: ms) t ->
      transcript_of (m :: m' :: ms) (role m +:+ ": " +:+ content m +:+ LF +:+ t).

(** The lines of a text: its pieces between line feeds. *)
Fixpoint lines_from (acc s : string) : list string :=
  match s with
  | "" => [acc]
  | String c rest =>
      if Ascii.eqb c (ascii_of_nat 10) then acc :: lines_from "" rest
      else lines_from (acc +:+ String c "") rest
  end.

Definition lines (s : string) : list string := lines_from "" s.

(** A text without a line feed. *)
Fixpoint single_line (s : string) : bool :=
  match s with
  | "" => true
  | String c rest => negb (Ascii.eqb c (ascii_of_nat 10)) && single_line rest
  end.

(** ** Start of a training (App) *)

(** What [handleStart] does, in order. *)
Inductive start_effect : Type :=
  | ApiCreateAgent (scenario : string)
  | SetCurrentAgent (agent_id : jsval)
  | SetShowSetup (b : bool)
  | StartConsoleError.

(** [handleStart]: [createAgent] is the outcome of the request
    [api.createAgent] makes, its response or [None] when it rejects;
    destructuring [agent_id] out of [null] throws into the [catch]. *)
Definition handleStart (selectedScenario : option string)
    (createAgent : string -> option jsval) : list start_effect :=
  match selectedScenario with
  | None | Some "" => []
  | Some scenario =>
      ApiCreateAgent scenario ::
      match createAgent scenario with
      | Some response =>
          match member response "agent_id" with
          | Some agent_id => [SetCurrentAgent agent_id; SetShowSetup false]
          | None => [StartConsoleError]
          end
      | None => [StartConsoleError]
      end
  end.

(** The state of App that a start touches. *)
Record setup_state : Type := SetupState {
  showSetup : bool;
  currentAgent : jsval
}.

Definition apply_start_effect (st : setup_state) (e : start_effect) : setup_state :=
  match e with
  | SetCurrentAgent a => SetupState (showSetup st) a
  | SetShowSetup b => SetupState b (currentAgent st)
  | ApiCreateAgent _ | StartConsoleError => st
  end.

Definition run_start_effects (st : setup_state) (es : list start_effect)
  : setup_state :=
  foldl apply_start_effect st es.

(** ** Scenario list (ScenarioList, and App's active scenario) *)

(** Modelled from the spec: the declarations of types.ts are not among the
    sources. A scenario has the fields the components read; its two
    optional flags are [false] when absent. *)
Record Scenario : Type := MkScenario {
  scenario_id : string;
  name : string;
  description : string;
  is_graph_scenario : bool;
  generated_from_graph : bool
}.

(** [s.includes(sub)] *)
Fixpoint includes (s sub : string) : bool :=
  String.prefix sub s
  || match s with
     | "" => false
     | String _ rest => includes rest sub
     end.

(** [s.split('.')[0]]: the text before the first full stop. *)
Fixpoint before_dot (s : string) : string :=
  match s with
  | "" => ""
  | String c rest => if Ascii.eqb c "." then "" else String c (before_dot rest)
  end.

(** [selectedScenario === scenario.id] *)
Definition is_selected (selectedScenario : option string) (s : Scenario) : bool :=
  match selectedScenario with
  | Some sel => String.eqb sel (scenario_id s)
  | None => false
  end.

(** App's [activeScenario]: [selectedScenarioData ||
    scenarios.find(s => s.id === selectedScenario) || null]. *)
Definition activeScenario (selectedScenarioData : option Scenario)
    (scenarios : list Scenario) (selectedScenario : option string)
  : option Scenario :=
  match selectedScenarioData with
  | Some data => Some data
  | None => List.find (is_selected selectedScenario) scenarios
  end.

Definition germanScenarios (scenarios : list Scenario) : list Scenario :=
  List.filter (fun s => negb (is_graph_scenario s) && includes (name s) "(DE)")
              scenarios.

Definition frenchScenarios (scenarios : list Scenario) : list Scenario :=
  List.filter (fun s => negb (is_graph_scenario s) && includes (name s) "(FR)")
              scenarios.

Definition englishScenarios (scenarios : list Scenario) : list Scenario :=
  List.filter (fun s => negb (is_graph_scenario s) && includes (name s) "(EN)")
              scenarios.

Definition graphScenario (generatedScenario : option Scenario)
    (scenarios : list Scenario) : option Scenario :=
  match generatedScenario with
  | Some g => Some g
  | None => List.find is_graph_scenario scenarios
  end.

Definition getCurrentScenarios (selectedTab : string)
    (generatedScenario : option Scenario) (scenarios : list Scenario)
  : list Scenario :=
  if String.eqb selectedTab "german" then germanScenarios scenarios
  else if String.eqb selectedTab "french" then frenchScenarios scenarios
  else if String.eqb selectedTab "english" then englishScenarios scenarios
  else if String.eqb selectedTab "personalized" then
    match graphScenario generatedScenario scenarios with
    | Some g => [g]
    | None => []
    end
  else [].

(** A rendered card: the spinner that stands in for a graph scenario being
    generated, or a card that can be clicked. *)
Inductive card : Type :=
  | LoadingCard
  | ScenarioCard (key : string) (selected : bool) (s : Scenario).

Definition renderScenarioCard (selectedScenario : option string)
    (loadingGraph : bool) (scenario : Scenario) : card :=
  let isSelected := is_selected selectedScenario scenario in
  let isGraphLoading :=
    is_graph_scenario scenario && loadingGraph
    && negb (generated_from_graph scenario) in
  if isGraphLoading then LoadingCard
  else ScenarioCard (scenario_id scenario) isSelected scenario.

(** The Start Training button: [disabled={!selectedScenario || loadingGraph}]. *)
Definition start_disabled (selectedScenario : option string) (loadingGraph : bool)
  : bool :=
  match selectedScenario with
  | None | Some "" => true
  | Some _ => loadingGraph
  end.

(** A click on the Start Training button: a disabled button runs no
    handler. *)
Definition click_start (selectedScenario : option string) (loadingGraph : bool)
    (createAgent : string -> option jsval) : list start_effect :=
  if start_disabled selectedScenario loadingGraph then []
  else handleStart selectedScenario createAgent.

(** What [handleScenarioClick] does, in order. *)
Inductive list_effect : Type :=
  | SetLoadingGraph (b : bool)
  | ApiGenerateGraphScenario
  | SetGeneratedScenario (s : Scenario)
  | OnScenarioGenerated (s : Scenario)
  | OnSelect (id : string)
  | ListConsoleError.

(** The [personalizedScenario] object: the generated one with a new name
    and the first sentence of its description. *)
Definition personalizedScenario (generated : Scenario) : Scenario :=
  MkScenario (scenario_id generated) "Personalized Scenario"
             (before_dot (description generated) +:+ ".")
             (is_graph_scenario generated) (generated_from_graph generated).

(** [handleScenarioClick]: [generate] is the outcome of the request
    [api.generateGraphScenario] makes ([None] when it rejects), and
    [has_callback] tells whether [onScenarioGenerated] was passed. *)
Definition handleScenarioClick (generate : option Scenario) (has_callback : bool)
    (scenario : Scenario) : list list_effect :=
  if is_graph_scenario scenario && negb (generated_from_graph scenario) then
    ([SetLoadingGraph true; ApiGenerateGraphScenario]
     ++ match generate with
        | Some generated =>
            let personalized := personalizedScenario generated in
            ([SetGeneratedScenario personalized]
             ++ (if has_callback then [OnScenarioGenerated personalized] else [])
             ++ [OnSelect (scenario_id personalized)])%list
        | None => [ListConsoleError]
        end
     ++ [SetLoadingGraph false])%list
  else [OnSelect (scenario_id scenario)].

(** The state of ScenarioList and of its parent that a click touches. *)
Record list_state : Type := ListState {
  loadingGraph : bool;
  generatedScenario : option Scenario;
  selected : option string
}.

Definition apply_list_effect (st : list_state) (e : list_effect) : list_state :=
  match e with
  | SetLoadingGraph b => ListState b (generatedScenario st) (selected st)
  | SetGeneratedScenario s => ListState (loadingGraph st) (Some s) (selected st)
  | OnSelect id => ListState (loadingGraph st) (generatedScenario st) (Some id)
  | ApiGenerateGraphScenario | OnScenarioGenerated _ | ListConsoleError => st
  end.

Definition run_list_effects (st : list_state) (es : list list_effect) : list_state :=
  foldl apply_list_effect st es.

(** ** Message list (ChatPanel) *)

Inductive bubble_style : Type :=
  | userMessage
  | assistantMessage.

Record bubble : Type := Bubble {
  bubble_key : string;
  bubble_class : bubble_style;
  bubble_text : string
}.

Definition bubble_of (msg : Message) : bubble :=
  Bubble (id msg)
         (if String.eqb (role msg) "user" then userMessage else assistantMessage)
         (content msg).

(** The message area: the placeholder for an empty list, and otherwise
    [messages.slice().reverse().map(...)]. *)
Inductive message_area : Type :=
  | Placeholder
  | Bubbles (bs : list bubble).

Definition render_messages (msgs : list Message) : message_area :=
  if bool_decide (length msgs = 0) then Placeholder
  else Bubbles (bubble_of <$> reverse msgs).

(** ** Score badges (AssessmentPanel) *)

Inductive badge_color : Type :=
  | success
  | warning
  | danger.

Definition getScoreColor (score : float) : badge_color :=
  if PrimFloat.leb 80 score then success
  else if PrimFloat.leb 60 score then warning
  else danger.

(** The label of the overall badge. *)
Definition overall_label (score : float) : string :=
  if PrimFloat.leb 80 score then "Great"
  else if PrimFloat.leb 60 score then "Good"
  else "Needs Work".

Record word_result : Type := WordResult {
  word : string;
  accuracy : float
}.

(** The word badges: [words.slice(0, 12).map((word, i) => ...)], each with
    its index as key, the colour of its accuracy, and the word it shows. *)
Definition word_badges (words : list word_result)
  : list (nat * badge_color * word_result) :=
  imap (fun i w => (i, getScoreColor (accuracy w), w)) (take 12 words).

End Js.

(** * Properties of the backend *)

Import Py.

(** ** The forwarding duties *)

(** What a duty has sent extends what was sent before by a subsequence of
    its source. *)
Lemma relay_loop_sent (wanted : string) (source sent : list frame) :
  ∃ kept, (relay_loop wanted source sent).1 = (sent ++ kept)%list
          ∧ kept `sublist_of` source.
Proof.
  revert sent. induction source as [|message later IH]; intros sent; simpl.
  - exists []. by rewrite app_nil_r.
  - destruct (json_loads message) as [data|e]; simpl.
    + destruct (getitem data "type") as [ty|e]; simpl.
      * destruct (eq_str ty wanted).
        -- destruct (IH (sent ++ [message])%list) as (kept & -> & Hsub).
           exists (message :: kept). split.
           ++ by rewrite <- app_assoc.
           ++ by apply sublist_skip.
        -- destruct (IH sent) as (kept & -> & Hsub).
           exists kept. split; [done | by apply sublist_cons].
      * exists []. split; [by rewrite app_nil_r | apply sublist_nil_l].
    + exists []. split; [by rewrite app_nil_r | apply sublist_nil_l].
Qed.

(** One step of a duty on a frame that has a type: the frame is passed on
    when the type is the wanted one, and skipped otherwise. *)
Lemma relay_loop_step (wanted : string) (m : frame) (ty : pyval)
    (later sent : list frame) :
  message_type m = Some ty ->
  relay_loop wanted (m :: later) sent =
  relay_loop wanted later (if eq_str ty wanted then (sent ++ [m])%list else sent).
Proof.
  unfold message_type. intros Hty. simpl.
  destruct (json_loads m) as [data|e]; [|done].
  destruct (getitem data "type") as [ty'|e]; [|done].
  injection Hty as ->. by destruct (eq_str ty wanted).
Qed.

(** On a source whose frames all have a type, a duty runs to the end of
    the source and has sent exactly the frames of the wanted type. *)
Lemma relay_loop_filter (wanted : string) (source sent : list frame) :
  Forall (fun m => is_Some (message_type m)) source ->
  relay_loop wanted source sent =
  ((sent ++ filter (fun m => has_type wanted m = true) source)%list, Ok ()).
Proof.
  intros Hall. revert sent. induction Hall as [|m later [ty Hty] _ IH]; intros sent.
  - by rewrite filter_nil, app_nil_r.
  - rewrite (relay_loop_step _ _ _ _ _ Hty), IH.
    destruct (eq_str ty wanted) eqn:Heq.
    + rewrite filter_cons_True by (unfold has_type; by rewrite Hty).
      by rewrite <- app_assoc.
    + rewrite filter_cons_False; [done|].
      unfold has_type. rewrite Hty. congruence.
Qed.

(** C1: in each direction, what the duty sends to its destination is a
    subsequence of what it received from its source, in the same relative
    order; the frames are passed on one by one, as received. *)
Theorem forwarding_preserves_order (from_client from_azure : list frame) :
  (_forward_client_to_azure from_client []).1 `sublist_of` from_client
  ∧ (_forward_azure_to_client from_azure []).1 `sublist_of` from_azure.
Proof.
  unfold _forward_client_to_azure, _forward_azure_to_client. split.
  - destruct (relay_loop_sent "input_audio_buffer.append" from_client [])
      as (kept & -> & Hsub). done.
  - destruct (relay_loop_sent "response.audio.delta" from_azure [])
      as (kept & -> & Hsub). done.
Qed.

(** C3, where the code departs from it: a frame of a type the
    specification does not name is classified as unrecognized, and neither
    duty passes it on; each consumes it and sends nothing. *)
Lemma unrecognized_frame_is_dropped :
  let m := Frame ("{" +:+ DQ +:+ "type" +:+ DQ +:+ ": " +:+ DQ
                  +:+ "rate_limits.updated" +:+ DQ +:+ "}")
                 (Ok (PDict [("type", PStr "rate_limits.updated")])) in
  (message_type m = Some (PStr "rate_limits.updated")
   ∧ Classify (PStr "rate_limits.updated") = Unrecognized)
  ∧ _forward_azure_to_client [m] [] = ([], Ok ())
  ∧ _forward_client_to_azure [m] [] = ([], Ok ())
  ∧ ¬ (m ∈ (_forward_azure_to_client [m] []).1)
  ∧ ¬ (m ∈ (_forward_client_to_azure [m] []).1).
Proof.
  vm_compute. repeat split; try reflexivity; apply not_elem_of_nil.
Qed.

(** ** The address builder *)

(** An Ephemeral agent with no deployment name configured: neither a model
    name nor an agent id can be sent, and the builder still answers with an
    address, naming the model [None]. *)
Lemma ephemeral_without_model_name_is_addressed :
  let env := HandlerEnv "res" {[ "model_deployment_name" := None ]}
                        "0f8fad5b-d9cb-469f-a165-70867728950e" (fun _ _ => true) in
  let agent_id := "local-agent-abc123" in
  isEphemeral agent_id = true
  ∧ modelNamePresent env = false
  ∧ neither_or_both (isEphemeral agent_id) (modelNamePresent env) = true
  ∧ _build_azure_websocket_url env agent_id =
      Ok ("wss://res.cognitiveservices.azure.com/voice-agent/realtime"
          +:+ "?api-version=2025-05-01-preview"
          +:+ "&x-ms-client-request-id=0f8fad5b-d9cb-469f-a165-70867728950e"
          +:+ "&model=None")
  ∧ ¬ (is_ok (_build_azure_websocket_url env agent_id) = false
       <-> neither_or_both (isEphemeral agent_id) (modelNamePresent env) = true).
Proof.
  vm_compute. repeat split; try reflexivity.
  intros [_ H]. specialize (H eq_refl). discriminate H.
Qed.

(** C2, as amended: for every agent id the address carries exactly one of
    the parameters model and agent-id: model, with whatever the
    configuration holds as deployment name, when the id starts with
    [local-agent], and agent-id, with the id itself, otherwise. There is no
    InvalidRouting failure: the builder fails only when the configuration
    has no entry for the deployment name of an Ephemeral agent, and then
    with the lookup's KeyError. *)
Theorem address_carries_one_routing_parameter (env : handler_env)
    (agent_id : string) :
  match url_params env agent_id with
  | Ok params =>
      _build_azure_websocket_url env agent_id =
        Ok (("wss://" +:+ resource_name env +:+ ".cognitiveservices.azure.com")
            +:+ "/voice-agent/realtime" +:+ "?" +:+ urlencode params)
      ∧ length (routing_of params) = 1
      ∧ (if isEphemeral agent_id
         then ∃ v, config env !! "model_deployment_name" = Some v
                   ∧ routing_of params = [("model", v)]
         else routing_of params = [("agent-id", Some agent_id)])
  | Raise e =>
      _build_azure_websocket_url env agent_id = Raise e
      ∧ e = KeyError "model_deployment_name"
      ∧ isEphemeral agent_id = true
      ∧ config env !! "model_deployment_name" = None
  end.
Proof.
  unfold _build_azure_websocket_url, url_params, isEphemeral, config_getitem.
  destruct (startswith agent_id "local-agent") eqn:Hpre.
  - destruct (config env !! "model_deployment_name") as [v|] eqn:Hcfg; simpl.
    + split; [reflexivity|]. split; [reflexivity|]. by exists v.
    + done.
  - simpl. split; [reflexivity|]. split; reflexivity.
Qed.

(** ** The agent manager *)

(** A scenario whose persona is one sentence: the instructions
    [create_agent] passes to the creator begin with the persona and end
    with the baseline, not the other way round. *)
Lemma baseline_follows_persona :
  let self := MkAgentManager ∅ false None in
  let scenario_data :=
    PDict [("messages", PList [PDict [("role", PStr "system");
                                      ("content", PStr "You are Frau Mueller.")]])] in
  let expected := PStr ("You are Frau Mueller." +:+ BASE_INSTRUCTIONS) in
  let claimed := PStr (BASE_INSTRUCTIONS +:+ "You are Frau Mueller.") in
  create_agent_call self "scenario1" scenario_data =
    Ok (CallCreateLocal "scenario1" expected (PStr "gpt-4o") (PFloat 0.7))
  ∧ expected ≠ claimed.
Proof.
  vm_compute. split; [reflexivity|]. intros H. discriminate H.
Qed.

(** C6, as amended: for every scenario, the instructions [create_agent]
    computes and passes to the agent creator, local or Azure, are the
    scenario's persona instructions followed by the fixed baseline:
    instructions = persona-instructions ++ baseline-preamble, the baseline
    last. *)
Theorem instructions_are_persona_then_baseline (self : AgentManager)
    (scenario_id : string) (scenario_data : pyval) (persona : string)
    (parameters : list (string * pyval)) :
  scenario_content scenario_data = Ok (PStr persona) ->
  dict_get scenario_data "modelParameters" (PDict []) = Ok (PDict parameters) ->
  ∃ call model temperature,
    create_agent_call self scenario_id scenario_data = Ok call
    ∧ call_instructions call = PStr (persona +:+ BASE_INSTRUCTIONS)
    ∧ call =
        if use_azure_ai_agents self && bool_decide (is_Some (project_client self))
        then CallCreateAzure scenario_id (PStr (persona +:+ BASE_INSTRUCTIONS))
               model temperature
        else CallCreateLocal scenario_id (PStr (persona +:+ BASE_INSTRUCTIONS))
               model temperature.
Proof.
  intros Hcontent Hparams. unfold create_agent_call. rewrite Hcontent. simpl.
  destruct scenario_data as [| | | | | |items]; try discriminate Hparams.
  simpl in *. injection Hparams as ->. simpl.
  destruct (use_azure_ai_agents self && bool_decide (is_Some (project_client self)));
    eexists _, _, _; (split; [reflexivity|]); split; reflexivity.
Qed.

Lemma instructions_are_persona_then_baseline_witness :
  ∃ call,
    create_agent_call (MkAgentManager ∅ false None) "scenario1"
      (PDict [("messages", PList [PDict [("content", PStr "Hello.")]])]) = Ok call
    ∧ call_instructions call = PStr ("Hello." +:+ BASE_INSTRUCTIONS).
Proof.
  destruct (instructions_are_persona_then_baseline
              (MkAgentManager ∅ false None) "scenario1"
              (PDict [("messages", PList [PDict [("content", PStr "Hello.")]])])
              "Hello." [] eq_refl eq_refl)
    as (call & model & temperature & Hcall & Hinstr & _).
  exists call. split; assumption.
Defined.

(** ** The configuration message *)

(** What the sender appends: one message, whose session is the literal's
    without the behaviour group when the instructions are [None], and the
    literal's with the given temperature otherwise. *)
Lemma _send_session_update_message (azure_ws : list pyval)
    (instructions temperature : pyval) :
  ∃ session,
    _send_session_update azure_ws instructions temperature =
      (azure_ws ++ [PDict [("type", PStr "session.update");
                           ("session", PDict session)]])%list
    ∧ enables_defaults (PDict [("type", PStr "session.update");
                               ("session", PDict session)])
    ∧ (instructions = PNone ->
       session = [ ("modalities", PList [PStr "text"; PStr "audio"]);
                   ("turn_detection", PDict [("type", PStr "azure_semantic_vad")]);
                   ("input_audio_noise_reduction",
                      PDict [("type", PStr "azure_deep_noise_suppression")]);
                   ("input_audio_echo_cancellation",
                      PDict [("type", PStr "server_echo_cancellation")]);
                   ("avatar", PDict [("character", PStr "lisa");
                                     ("style", PStr "casual-sitting")]);
                   ("voice", PDict [("name", PStr "en-US-Ava:DragonHDLatestNeural")]) ])
    ∧ (instructions ≠ PNone ->
       dict_lookup session "instructions" = Some instructions
       ∧ dict_lookup session "temperature" = Some temperature).
Proof.
  unfold _send_session_update.
  destruct instructions; eexists; (split; [reflexivity|]);
    (split; [by repeat split|]); split; intros H; try done.
Qed.

(** The connect step, run to its end: the address built, and the one
    message the sender appended for the registered record. *)
Lemma _connect_to_azure_sends (env : handler_env) (agent_manager : AgentManager)
    (agent_id url : string) (api_key : option string) (record kind temperature : pyval) :
  agents agent_manager !! agent_id = Some record ->
  _build_azure_websocket_url env agent_id = Ok url ->
  config env !! "azure_openai_api_key" = Some api_key ->
  accepts env url api_key = true ->
  getitem record "type" = Ok kind ->
  getitem record "temperature" = Ok temperature ->
  if eq_str kind "local"
  then ∀ instructions, getitem record "instructions" = Ok instructions ->
         _connect_to_azure env agent_manager agent_id =
           Ok (url, _send_session_update [] instructions temperature)
  else _connect_to_azure env agent_manager agent_id =
         Ok (url, _send_session_update [] PNone temperature).
Proof.
  intros Hrec Hurl Hkey Hacc Hkind Htemp.
  unfold _connect_to_azure, get_agent, config_getitem.
  rewrite Hrec, Hurl, Hkey. simpl. rewrite Hacc. simpl. rewrite Hkind. simpl.
  destruct (eq_str kind "local").
  - intros instructions Hinstr. rewrite Hinstr. simpl. by rewrite Htemp.
  - by rewrite Htemp.
Qed.

(** C4: the configuration message sent for an Ephemeral (local) agent
    carries that agent's instructions and temperature; the one sent for a
    Persistent agent carries the audio, voice and avatar parameters and
    nothing else, whatever the agent's record holds. *)
Theorem config_message_by_agent_kind (env : handler_env)
    (agent_manager : AgentManager) (agent_id url : string)
    (api_key : option string) (record kind temperature : pyval) :
  agents agent_manager !! agent_id = Some record ->
  _build_azure_websocket_url env agent_id = Ok url ->
  config env !! "azure_openai_api_key" = Some api_key ->
  accepts env url api_key = true ->
  getitem record "type" = Ok kind ->
  getitem record "temperature" = Ok temperature ->
  if eq_str kind "local"
  then ∀ persona, getitem record "instructions" = Ok (PStr persona) ->
         ∃ session,
           _connect_to_azure env agent_manager agent_id =
             Ok (url, [PDict [("type", PStr "session.update");
                              ("session", PDict session)]])
           ∧ dict_lookup session "instructions" = Some (PStr persona)
           ∧ dict_lookup session "temperature" = Some temperature
  else _connect_to_azure env agent_manager agent_id =
         Ok (url,
             [PDict [("type", PStr "session.update");
                     ("session", PDict [
                        ("modalities", PList [PStr "text"; PStr "audio"]);
                        ("turn_detection", PDict [("type", PStr "azure_semantic_vad")]);
                        ("input_audio_noise_reduction",
                           PDict [("type", PStr "azure_deep_noise_suppression")]);
                        ("input_audio_echo_cancellation",
                           PDict [("type", PStr "server_echo_cancellation")]);
                        ("avatar", PDict [("character", PStr "lisa");
                                          ("style", PStr "casual-sitting")]);
                        ("voice",
                           PDict [("name", PStr "en-US-Ava:DragonHDLatestNeural")]) ])]]).
Proof.
  intros Hrec Hurl Hkey Hacc Hkind Htemp.
  pose proof (_connect_to_azure_sends env agent_manager agent_id url api_key
                record kind temperature Hrec Hurl Hkey Hacc Hkind Htemp) as Hrun.
  destruct (eq_str kind "local").
  - intros persona Hinstr. rewrite (Hrun _ Hinstr).
    destruct (_send_session_update_message [] (PStr persona) temperature)
      as (session & -> & _ & _ & Hemb).
    exists session. split; [reflexivity|]. by apply Hemb.
  - rewrite Hrun.
    destruct (_send_session_update_message [] PNone temperature)
      as (session & -> & _ & Hsession & _).
    by rewrite (Hsession eq_refl).
Qed.

Lemma config_message_by_agent_kind_witness :
  let env := HandlerEnv "res"
               {[ "model_deployment_name" := Some "gpt-4o";
                  "azure_openai_api_key" := Some "secret" ]}
               "0f8fad5b" (fun _ _ => true) in
  let created :=
    _create_local_agent (MkAgentManager ∅ false None) (Draws "abc12345" "now")
      "scenario1" (PStr "You are Frau Mueller.") (PStr "gpt-4o") (PFloat 0.7)
      (PInt 2000) in
  ∃ url session,
    _connect_to_azure env created.1 "local-agent-abc12345" =
      Ok (url, [PDict [("type", PStr "session.update"); ("session", PDict session)]])
    ∧ dict_lookup session "instructions" = Some (PStr "You are Frau Mueller.")
    ∧ dict_lookup session "temperature" = Some (PFloat 0.7).
Proof.
  intros env created.
  pose proof (config_message_by_agent_kind env created.1 "local-agent-abc12345"
                _ (Some "secret") _ (PStr "local") (PFloat 0.7)
                eq_refl eq_refl eq_refl eq_refl eq_refl eq_refl) as H.
  simpl in H. eexists. exact (H "You are Frau Mueller." eq_refl).
Defined.

(** A connect step that returns has sent what one call of the sender
    appends to an empty connection. *)
Lemma _connect_to_azure_inv (env : handler_env) (agent_manager : AgentManager)
    (agent_id url : string) (sent : list pyval) :
  _connect_to_azure env agent_manager agent_id = Ok (url, sent) ->
  ∃ instructions temperature,
    sent = _send_session_update [] instructions temperature.
Proof.
  unfold _connect_to_azure.
  destruct (_build_azure_websocket_url env agent_id) as [u|e]; simpl; [|done].
  destruct (config_getitem env "azure_openai_api_key") as [k|e]; simpl; [|done].
  destruct (accepts env u k); simpl; [|done].
  destruct (getitem (get_agent agent_manager agent_id) "type") as [kind|e];
    simpl; [|done].
  destruct (eq_str kind "local").
  - destruct (getitem (get_agent agent_manager agent_id) "instructions")
      as [i|e]; simpl; [|done].
    destruct (getitem (get_agent agent_manager agent_id) "temperature")
      as [t|e]; simpl; [|done].
    intros [= _ <-]. eauto.
  - destruct (getitem (get_agent agent_manager agent_id) "temperature")
      as [t|e]; simpl; [|done].
    intros [= _ <-]. eauto.
Qed.

(** C5: whatever the agent and whatever the session supplies, the
    configuration message enables the text and audio modalities, semantic
    voice-activity detection, deep noise suppression and server-side echo
    cancellation: so does the [session_config] literal for every
    instructions value, so does every message the sender builds, and so
    does every message a connect step has sent. *)
Theorem defaults_always_enabled (scenario_instructions instructions temperature : pyval)
    (azure_ws : list pyval) :
  enables_defaults (session_config scenario_instructions)
  ∧ (∃ message,
       _send_session_update azure_ws instructions temperature
         = (azure_ws ++ [message])%list
       ∧ enables_defaults message)
  ∧ (∀ env agent_manager agent_id url sent,
       _connect_to_azure env agent_manager agent_id = Ok (url, sent) ->
       ∃ message, sent = [message] ∧ enables_defaults message).
Proof.
  split; [by repeat split|]. split.
  - destruct (_send_session_update_message azure_ws instructions temperature)
      as (session & -> & Hdef & _). eauto.
  - intros env agent_manager agent_id url sent Hrun.
    destruct (_connect_to_azure_inv _ _ _ _ _ Hrun) as (i & t & ->).
    destruct (_send_session_update_message [] i t) as (session & -> & Hdef & _).
    eauto.
Qed.

(** * Properties of the frontend *)

Import Js.

(** ** Negotiation parameters *)

(** A message carrying the username under the avatar key (there, the empty
    string) and at top level: the top-level value is the one handed over. *)
Lemma empty_avatar_username_falls_through :
  let session :=
    JObj [ ("avatar", JObj [ ("ice_servers", JArr [JStr "turn:relay.example:3478"]);
                             ("username", JStr "");
                             ("credential", JStr "avatar-secret") ]);
           ("ice_username", JStr "legacy-user");
           ("ice_credential", JStr "legacy-secret") ] in
  let msg := JObj [("type", JStr "session.updated"); ("session", session)] in
  opt (opt session "avatar") "username" = JStr ""
  ∧ opt session "ice_username" = JStr "legacy-user"
  ∧ handleWebRTCMessage msg =
      Some [SetupWebRTC (JArr [JStr "turn:relay.example:3478"])
                        (JStr "legacy-user") (JStr "avatar-secret")].
Proof. vm_compute. repeat split; reflexivity. Qed.

(** The nested [||] of the source picks what the ordered chain picks. *)
Lemma js_or_chain3 (a b c : jsval) :
  js_or (js_or a b) c = first_truthy [a; b; c].
Proof.
  unfold js_or. simpl.
  destruct (truthy a) eqn:Ha; rewrite ?Ha; [done|].
  destruct (truthy b) eqn:Hb; rewrite ?Hb; done.
Qed.

Lemma js_or_chain4 (a b c d : jsval) :
  js_or (js_or (js_or a b) c) d = first_truthy [a; b; c; d].
Proof.
  unfold js_or. simpl.
  destruct (truthy a) eqn:Ha; rewrite ?Ha; [done|].
  destruct (truthy b) eqn:Hb; rewrite ?Hb; [done|].
  destruct (truthy c) eqn:Hc; rewrite ?Hc; done.
Qed.

(** The chain yields a truthy candidate that only falsy ones precede. *)
Lemma first_truthy_pick (before after : list jsval) (v : jsval) :
  Forall (fun w => truthy w = false) before ->
  truthy v = true ->
  first_truthy (before ++ v :: after)%list = v.
Proof.
  intros Hbefore Hv. induction Hbefore as [|w before Hw _ IH]; simpl.
  - rewrite Hv. by destruct after.
  - rewrite Hw, IH. by destruct (before ++ v :: after)%list eqn:E;
      [destruct before; discriminate E|].
Qed.

(** C7, as amended: on a [session.updated] message each of the three
    fields is the first truthy value along its fixed chain, the
    avatar-namespaced keys first, then the rtc-namespaced, the top-level
    key last; so an avatar-namespaced value that is truthy (not empty, not
    null) wins over a top-level one. The negotiation hook is called, once,
    with the three values when the servers found are truthy, and not at
    all otherwise. *)
Theorem negotiation_fields_by_priority (msg : jsval) :
  member msg "type" = Some (JStr "session.updated") ->
  let session := prop msg "session" in
  let servers := first_truthy (servers_chain session) in
  let username := first_truthy (username_chain session) in
  let credential := first_truthy (credential_chain session) in
  handleWebRTCMessage msg =
    Some (if truthy servers then [SetupWebRTC servers username credential] else [])
  ∧ (truthy (opt (opt session "avatar") "ice_servers") = true ->
     servers = opt (opt session "avatar") "ice_servers")
  ∧ (truthy (opt (opt session "avatar") "username") = true ->
     username = opt (opt session "avatar") "username")
  ∧ (truthy (opt (opt session "avatar") "credential") = true ->
     credential = opt (opt session "avatar") "credential").
Proof.
  intros Hty session servers username credential.
  unfold handleWebRTCMessage. rewrite Hty. simpl.
  rewrite js_or_chain3, !js_or_chain4.
  fold session. fold (servers_chain session) (username_chain session)
    (credential_chain session). fold servers username credential.
  split; [by destruct (truthy servers)|].
  repeat split; intros Hv.
  - exact (first_truthy_pick [] _ _ (List.Forall_nil _) Hv).
  - exact (first_truthy_pick [] _ _ (List.Forall_nil _) Hv).
  - exact (first_truthy_pick [] _ _ (List.Forall_nil _) Hv).
Qed.

Lemma negotiation_fields_by_priority_witness :
  let session :=
    JObj [ ("avatar", JObj [ ("ice_servers", JArr [JStr "turn:relay.example:3478"]);
                             ("username", JStr "avatar-user");
                             ("credential", JStr "avatar-secret") ]);
           ("ice_servers", JArr [JStr "turn:legacy.example:3478"]);
           ("ice_username", JStr "legacy-user");
           ("ice_credential", JStr "legacy-secret") ] in
  handleWebRTCMessage (JObj [("type", JStr "session.updated"); ("session", session)])
  = Some [SetupWebRTC (JArr [JStr "turn:relay.example:3478"])
                      (JStr "avatar-user") (JStr "avatar-secret")].
Proof.
  intros session.
  exact (proj1 (negotiation_fields_by_priority
                  (JObj [("type", JStr "session.updated"); ("session", session)])
                  eq_refl)).
Defined.

(** ** Outbound messages *)

Lemma deliver_all_sends {Chan : Type} (send : jsval -> Chan -> Chan)
    (ps : list produced) (ch : Chan) :
  deliver_all send ps ch = foldl (fun ch m => send m ch) ch (map outbound_message ps).
Proof.
  unfold deliver_all. revert ch. induction ps as [|p ps IH]; intros ch; simpl.
  - reflexivity.
  - rewrite IH. by destruct p.
Qed.

Lemma deliver_all_trace (ps : list produced) (sent : list jsval) :
  deliver_all trace_send ps sent = (sent ++ map outbound_message ps)%list.
Proof.
  unfold deliver_all. revert sent. induction ps as [|p ps IH]; intros sent; simpl.
  - by rewrite app_nil_r.
  - rewrite IH. destruct p; unfold deliver, sendOffer, sendAudioChunk, trace_send;
      by rewrite <- app_assoc.
Qed.

(** C8: an offer is sent as one message of type [session.avatar.connect]
    with the offer as its payload, through the same [send] that carries the
    audio chunks; on a channel that records what is sent, offers and chunks
    appear as one sequence, in the order they were produced. *)
Theorem offers_travel_the_outbound_channel {Chan : Type}
    (send : jsval -> Chan -> Chan) (sdp : string) (ps : list produced) (ch : Chan) :
  sendOffer send sdp ch = send (outbound_message (Offer sdp)) ch
  ∧ prop (outbound_message (Offer sdp)) "type" = JStr "session.avatar.connect"
  ∧ prop (outbound_message (Offer sdp)) "client_sdp" = JStr sdp
  ∧ deliver_all send ps ch
    = foldl (fun ch m => send m ch) ch (map outbound_message ps)
  ∧ deliver_all trace_send ps [] = map outbound_message ps.
Proof.
  repeat split.
  - apply deliver_all_sends.
  - by rewrite deliver_all_trace.
Qed.

(** ** The analysis trigger *)

Lemma append_assoc (a b c : string) : (a +:+ b) +:+ c = a +:+ b +:+ c.
Proof.
  induction a as [|x a IH]; [done|].
  change (String x ((a +:+ b) +:+ c) = String x (a +:+ b +:+ c)). by f_equal.
Qed.

Lemma append_nil_r (a : string) : a +:+ "" = a.
Proof.
  induction a as [|x a IH]; [done|].
  change (String x (a +:+ "") = String x a). by f_equal.
Qed.

(** The source's map-and-join builds the transcript the specification
    describes. *)
Lemma join_render_transcript (turns : list Message) :
  transcript_of turns (join LF (map render turns)).
Proof.
  induction turns as [|m [|m' ms] IH].
  - constructor.
  - constructor.
  - change (join LF (map render (m :: m' :: ms)))
      with (render m +:+ LF +:+ join LF (map render (m' :: ms))).
    unfold render at 1. rewrite !append_assoc.
    by apply transcript_more.
Qed.

(** The transcript of given turns is unique. *)
Lemma transcript_of_unique (turns : list Message) (t t' : string) :
  transcript_of turns t -> transcript_of turns t' -> t = t'.
Proof.
  intros H. revert t'. induction H; intros t' H'; inversion H'; subst; try done.
  f_equal. f_equal. f_equal. f_equal. by apply IHtranscript_of.
Qed.

Lemma lines_from_single (acc s rest : string) :
  single_line s = true ->
  lines_from acc (s +:+ rest) = lines_from (acc +:+ s) rest.
Proof.
  revert acc. induction s as [|c s IH]; intros acc Hs.
  - by rewrite append_nil_r.
  - simpl in Hs. apply andb_true_iff in Hs as [Hc Hs].
    change (String c s +:+ rest) with (String c (s +:+ rest)).
    change (String c s) with (String c "" +:+ s).
    rewrite <- append_assoc. rewrite <- IH by done.
    simpl. by destruct (Ascii.eqb c (ascii_of_nat 10)).
Qed.

(** Cutting a text joined by line feeds gives back the pieces, when no
    piece holds a line feed. *)
Lemma lines_join (pieces : list string) :
  pieces ≠ [] ->
  Forall (fun p => single_line p = true) pieces ->
  lines (join LF pieces) = pieces.
Proof.
  unfold lines. intros Hne Hall. induction Hall as [|p ps Hp Hps IH]; [done|].
  destruct ps as [|q ps].
  - change (join LF [p]) with p. rewrite <- (append_nil_r p) at 1.
    by rewrite lines_from_single.
  - change (join LF (p :: q :: ps)) with (p +:+ LF +:+ join LF (q :: ps)).
    rewrite lines_from_single by done.
    change (lines_from ("" +:+ p) (LF +:+ join LF (q :: ps)))
      with (p :: lines_from "" (join LF (q :: ps))).
    by rewrite IH.
Qed.

(** What [handleAnalyze] does once both of its guards have passed. *)
Lemma handleAnalyze_runs {Audio Assessment : Type}
    (env : @analyze_env Audio Assessment) (scenario : string) :
  selectedScenario env = Some scenario ->
  scenario ≠ "" ->
  conversation env ≠ [] ->
  analysis_requests (handleAnalyze env)
  = [(join LF (map render (conversation env)), conversation env)].
Proof.
  intros Hsel Hne Hconv. unfold handleAnalyze. rewrite Hsel.
  destruct scenario as [|c scenario]; [done|].
  rewrite bool_decide_false by (by destruct (conversation env)).
  simpl. by destruct (analyzeConversation env _ _ _ _).
Qed.

(** C9: the transcript handed to the analysis collaborator is the recorded
    turns rendered in order, one [role: text] line per turn, the lines
    joined by line feeds; when no turn holds a line feed itself, cutting the
    transcript at its line feeds gives back exactly the turns' lines, none
    added, dropped or moved. *)
Theorem transcript_is_turns_in_order {Audio Assessment : Type}
    (env : @analyze_env Audio Assessment) (scenario : string) :
  selectedScenario env = Some scenario ->
  scenario ≠ "" ->
  conversation env ≠ [] ->
  ∃ transcript,
    analysis_requests (handleAnalyze env) = [(transcript, conversation env)]
    ∧ transcript_of (conversation env) transcript
    ∧ (Forall (fun m => single_line (role m +:+ ": " +:+ content m) = true)
              (conversation env) ->
       lines transcript
       = map (fun m => role m +:+ ": " +:+ content m) (conversation env)).
Proof.
  intros Hsel Hne Hconv. exists (join LF (map render (conversation env))).
  split; [by apply (handleAnalyze_runs env scenario)|].
  split; [apply join_render_transcript|].
  intros Hsingle. apply lines_join.
  - by destruct (conversation env).
  - by apply Forall_map.
Qed.

Lemma transcript_is_turns_in_order_witness :
  let turns := [MkMessage "1" "user" "I need coverage info";
                MkMessage "2" "assistant" "Sure, um, which plan?"] in
  let env := @AnalyzeEnv nat nat (Some "scenario1") turns [] []
               (fun _ _ _ _ => Some (Some 0)) in
  ∃ transcript,
    analysis_requests (handleAnalyze env) = [(transcript, turns)]
    ∧ lines transcript = ["user: I need coverage info";
                          "assistant: Sure, um, which plan?"].
Proof.
  intros turns env.
  destruct (transcript_is_turns_in_order env "scenario1" eq_refl
              ltac:(discriminate) ltac:(discriminate))
    as (transcript & Hreq & _ & Hlines).
  exists transcript. split; [exact Hreq|].
  apply Hlines. repeat constructor.
Defined.

Lemma render_not_empty (m : Message) : render m ≠ "".
Proof. unfold render. by destruct (role m). Qed.

Lemma join_not_empty (sep p : string) (ps : list string) :
  p ≠ "" -> join sep (p :: ps) ≠ "".
Proof.
  intros Hp. destruct ps as [|q ps]; [done|].
  change (join sep (p :: q :: ps)) with (p +:+ sep +:+ join sep (q :: ps)).
  by destruct p.
Qed.

(** The requests [handleAnalyze] makes: none, or one, for turns that are
    not empty and a transcript that is not empty. *)
Lemma handleAnalyze_requests {Audio Assessment : Type}
    (env : @analyze_env Audio Assessment) (transcript : string)
    (turns : list Message) :
  (transcript, turns) ∈ analysis_requests (handleAnalyze env) ->
  turns = conversation env ∧ turns ≠ [] ∧ transcript ≠ "".
Proof.
  unfold handleAnalyze.
  destruct (selectedScenario env) as [[|c scenario]|]; simpl;
    try by intros ?%not_elem_of_nil.
  case_bool_decide as Hlen; simpl; [by intros ?%not_elem_of_nil|].
  destruct (conversation env) as [|m ms] eqn:Hconv; [done|].
  destruct (analyzeConversation env _ _ _ _); simpl;
    intros [= -> ->]%list_elem_of_singleton;
    (split; [done|]); (split; [done|]);
    apply join_not_empty, render_not_empty.
Qed.

(** C10: with no recorded turn, [handleAnalyze] does nothing at all: no
    request to the analysis collaborator, no change of what is shown. The
    Analyze button is disabled exactly when the message list is empty, and
    a disabled button runs nothing. Whenever a request is made, its turns
    and its transcript are not empty. *)
Theorem no_analysis_without_turns {Audio Assessment : Type}
    (env : @analyze_env Audio Assessment) (st : @app_state Assessment)
    (msgs : list Message) :
  (conversation env = [] ->
   handleAnalyze env = []
   ∧ analysis_requests (handleAnalyze env) = []
   ∧ run_effects st (handleAnalyze env) = st)
  ∧ (analyze_disabled (App_chat_props msgs env) = true <-> msgs = [])
  ∧ (msgs = [] -> click_analyze (App_chat_props msgs env) = [])
  ∧ (∀ transcript turns,
       (transcript, turns) ∈ analysis_requests (handleAnalyze env) ->
       turns ≠ [] ∧ transcript ≠ "").
Proof.
  split; [|split; [|split]].
  - intros Hconv.
    assert (handleAnalyze env = []) as ->; [|done].
    unfold handleAnalyze. rewrite Hconv.
    by destruct (selectedScenario env) as [[|c scenario]|].
  - unfold analyze_disabled, App_chat_props.
    destruct msgs as [|m ms]; [done|].
    cbn [canAnalyze]. rewrite bool_decide_true by (simpl; lia). done.
  - intros ->. reflexivity.
  - intros transcript turns Hin.
    by destruct (handleAnalyze_requests env transcript turns Hin) as (_ & ? & ?).
Qed.

(** * Further properties of the backend *)

(** ** The query string of the address *)

Lemma count_char_append (c : ascii) (a b : string) :
  count_char c (a +:+ b) = count_char c a + count_char c b.
Proof.
  induction a as [|x a IH]; [done|].
  change (count_char c (String x (a +:+ b))
          = count_char c (String x a) + count_char c b).
  simpl. rewrite IH. lia.
Qed.

(** What [quote_plus] writes for one byte holds no separator. *)
Lemma quote_plus_byte (x : ascii) :
  ∃ piece, (∀ rest, quote_plus (String x rest) = piece +:+ quote_plus rest)
           ∧ count_char "&" piece = 0 ∧ count_char "=" piece = 0.
Proof.
  eexists. split; [intros rest; reflexivity|].
  destruct x as [[] [] [] [] [] [] [] []]; vm_compute; done.
Qed.

Lemma quote_plus_no_separator (s : string) :
  count_char "&" (quote_plus s) = 0 ∧ count_char "=" (quote_plus s) = 0.
Proof.
  induction s as [|x s [IHa IHe]]; [done|].
  destruct (quote_plus_byte x) as (piece & -> & Ha & He).
  rewrite !count_char_append. lia.
Qed.

(** X1: whatever the agent id, the request id and the configured model
    name contain, the query string built for an address holds exactly
    three parameters: two [&] and three [=]. *)
Theorem query_has_three_parameters (env : handler_env) (agent_id : string)
    (params : list (string * option string)) :
  url_params env agent_id = Ok params ->
  length params = 3
  ∧ count_char "&" (urlencode params) = 2
  ∧ count_char "=" (urlencode params) = 3.
Proof.
  unfold url_params, config_getitem. intros Hparams.
  assert (∃ a b c, params = [a; b; c]) as (a & b & c & ->).
  { destruct (startswith agent_id "local-agent").
    - destruct (config env !! "model_deployment_name"); [|done].
      injection Hparams as <-. by eexists _, _, _.
    - injection Hparams as <-. by eexists _, _, _. }
  split; [done|]. unfold urlencode.
  change (join "&" (map _ [a; b; c]))
    with ((quote_plus a.1 +:+ "=" +:+ quote_plus (str_of a.2)) +:+ "&"
          +:+ (quote_plus b.1 +:+ "=" +:+ quote_plus (str_of b.2)) +:+ "&"
          +:+ (quote_plus c.1 +:+ "=" +:+ quote_plus (str_of c.2))).
  rewrite !count_char_append.
  destruct (quote_plus_no_separator a.1) as [-> ->].
  destruct (quote_plus_no_separator b.1) as [-> ->].
  destruct (quote_plus_no_separator c.1) as [-> ->].
  destruct (quote_plus_no_separator (str_of a.2)) as [-> ->].
  destruct (quote_plus_no_separator (str_of b.2)) as [-> ->].
  destruct (quote_plus_no_separator (str_of c.2)) as [-> ->].
  done.
Qed.

Lemma query_has_three_parameters_witness :
  count_char "&"
    (urlencode [ ("api-version", Some "2025-05-01-preview");
                 ("x-ms-client-request-id", Some "0f8fad5b");
                 ("agent-id", Some "asst&model=gpt-4o") ]) = 2.
Proof.
  exact (proj1 (proj2 (query_has_three_parameters
                         (HandlerEnv "res" ∅ "0f8fad5b" (fun _ _ => true))
                         "asst&model=gpt-4o" _ eq_refl))).
Defined.

(** ** More on the forwarding duties *)

(** X2: on a source whose frames all decode to an object with a type, each
    duty runs to the end of the source without an exception and has passed
    on exactly the frames of its audio type, in the order received. *)
Theorem well_formed_stream_is_filtered (source : list frame) :
  Forall (fun m => is_Some (message_type m)) source ->
  _forward_client_to_azure source [] =
    (filter (fun m => has_type "input_audio_buffer.append" m = true) source, Ok ())
  ∧ _forward_azure_to_client source [] =
    (filter (fun m => has_type "response.audio.delta" m = true) source, Ok ()).
Proof.
  intros Hall. unfold _forward_client_to_azure, _forward_azure_to_client.
  by rewrite !relay_loop_filter.
Qed.

Lemma well_formed_stream_is_filtered_witness :
  let chunk := Frame "a" (Ok (PDict [("type", PStr "input_audio_buffer.append")])) in
  let offer := Frame "b" (Ok (PDict [("type", PStr "session.avatar.connect")])) in
  _forward_client_to_azure [chunk; offer; chunk] [] = ([chunk; chunk], Ok ()).
Proof.
  intros chunk offer.
  exact (proj1 (well_formed_stream_is_filtered [chunk; offer; chunk]
                  ltac:(repeat constructor; by eexists))).
Defined.

(** The exception a frame without a type ends a duty with. *)
Lemma untyped_frame_raises (wanted : string) (bad : frame)
    (later sent : list frame) :
  message_type bad = None ->
  ∃ e, relay_loop wanted (bad :: later) sent = (sent, Raise e)
       ∧ (json_loads bad = Raise e
          ∨ ∃ data, json_loads bad = Ok data ∧ getitem data "type" = Raise e).
Proof.
  unfold message_type. intros Hbad. simpl.
  destruct (json_loads bad) as [data|e].
  - destruct (getitem data "type") as [ty|e] eqn:Hget; [done|].
    exists e. split; [done|]. right. by exists data.
  - exists e. split; [done|]. by left.
Qed.

(** X3: a frame that is not JSON, or whose JSON has no [type], ends the
    duty with the exception it causes, that of [json.loads] on the frame
    or that of reading [type] from what it decodes to: the frames passed
    on before it stay passed on, and no frame after it is passed on, audio
    or not. *)
Theorem malformed_frame_ends_the_duty (wanted : string)
    (before after : list frame) (bad : frame) :
  Forall (fun m => is_Some (message_type m)) before ->
  message_type bad = None ->
  ∃ e, relay_loop wanted (before ++ bad :: after) [] =
         (filter (fun m => has_type wanted m = true) before, Raise e)
       ∧ (json_loads bad = Raise e
          ∨ ∃ data, json_loads bad = Ok data ∧ getitem data "type" = Raise e).
Proof.
  intros Hbefore Hbad.
  assert (∀ sent, ∃ e, relay_loop wanted (before ++ bad :: after) sent =
            ((sent ++ filter (fun m => has_type wanted m = true) before)%list,
             Raise e)
            ∧ (json_loads bad = Raise e
               ∨ ∃ data, json_loads bad = Ok data
                         ∧ getitem data "type" = Raise e)) as Hgen;
    [|exact (Hgen [])].
  induction Hbefore as [|m before [ty Hty] _ IH]; intros sent.
  - change ([] ++ bad :: after)%list with (bad :: after).
    destruct (untyped_frame_raises wanted bad after sent Hbad) as (e & -> & Hcause).
    exists e. split; [|exact Hcause]. by rewrite filter_nil, app_nil_r.
  - change ((m :: before) ++ bad :: after)%list
      with (m :: (before ++ bad :: after))%list.
    rewrite (relay_loop_step _ _ _ _ _ Hty).
    destruct (eq_str ty wanted) eqn:Heq.
    + destruct (IH (sent ++ [m])%list) as (e & -> & Hcause). exists e.
      split; [|exact Hcause].
      rewrite filter_cons_True by (unfold has_type; by rewrite Hty).
      by rewrite <- app_assoc.
    + destruct (IH sent) as (e & -> & Hcause). exists e.
      split; [|exact Hcause].
      rewrite filter_cons_False; [done|].
      unfold has_type. rewrite Hty. congruence.
Qed.

Lemma malformed_frame_ends_the_duty_witness :
  let chunk := Frame "a" (Ok (PDict [("type", PStr "response.audio.delta")])) in
  let garbled := Frame "not json" (Raise JSONDecodeError) in
  _forward_azure_to_client [chunk; garbled; chunk] [] =
    ([chunk], Raise JSONDecodeError).
Proof.
  intros chunk garbled.
  destruct (malformed_frame_ends_the_duty "response.audio.delta" [chunk] [chunk]
              garbled ltac:(repeat constructor; by eexists) eq_refl)
    as (e & Hrun & [Hcause | (data & Hdata & _)]).
  - injection Hcause as <-. exact Hrun.
  - discriminate Hdata.
Defined.

(** Every frame a duty adds to the sent ones has the wanted type. *)
Lemma relay_loop_sent_typed (wanted : string) (source sent : list frame) :
  ∃ kept, (relay_loop wanted source sent).1 = (sent ++ kept)%list
          ∧ Forall (fun m => has_type wanted m = true) kept.
Proof.
  revert sent. induction source as [|message later IH]; intros sent.
  - exists []. by rewrite app_nil_r.
  - destruct (message_type message) as [ty|] eqn:Hty.
    + rewrite (relay_loop_step _ _ _ _ _ Hty).
      destruct (eq_str ty wanted) eqn:Heq.
      * destruct (IH (sent ++ [message])%list) as (kept & -> & Hkept).
        exists (message :: kept). split; [by rewrite <- app_assoc|].
        constructor; [|done]. unfold has_type. by rewrite Hty.
      * apply IH.
    + destruct (untyped_frame_raises wanted message later sent Hty)
        as (e & -> & _).
      exists []. by rewrite app_nil_r.
Qed.

(** X4: the two duties never pass on the same frame: what goes upstream is
    of a type the other duty does not pass on, so a frame cannot travel
    both ways. *)
Theorem no_frame_is_forwarded_both_ways (from_client from_azure : list frame)
    (m : frame) :
  m ∈ (_forward_client_to_azure from_client []).1 ->
  m ∉ (_forward_azure_to_client from_azure []).1.
Proof.
  unfold _forward_client_to_azure, _forward_azure_to_client.
  destruct (relay_loop_sent_typed "input_audio_buffer.append" from_client [])
    as (up & -> & Hup).
  destruct (relay_loop_sent_typed "response.audio.delta" from_azure [])
    as (down & -> & Hdown).
  simpl. intros Hin_up Hin_down.
  rewrite Forall_forall in Hup, Hdown.
  specialize (Hup m Hin_up). specialize (Hdown m Hin_down).
  unfold has_type in Hup, Hdown.
  destruct (message_type m) as [[| | | |t| |]|]; try done.
  simpl in Hup, Hdown.
  apply String.eqb_eq in Hup as ->. done.
Qed.

Lemma no_frame_is_forwarded_both_ways_witness :
  let chunk := Frame "a" (Ok (PDict [("type", PStr "input_audio_buffer.append")])) in
  chunk ∈ (_forward_client_to_azure [chunk] []).1
  ∧ chunk ∉ (_forward_azure_to_client [chunk] []).1.
Proof.
  intros chunk.
  assert (chunk ∈ (_forward_client_to_azure [chunk] []).1) as Hin
    by (apply list_elem_of_singleton; reflexivity).
  split; [exact Hin|].
  exact (no_frame_is_forwarded_both_ways [chunk] [chunk] chunk Hin).
Defined.

(** ** More on the agent manager *)

(** When [create_agent] gets as far as its call of a creator. *)
Lemma create_agent_call_succeeds_iff (self : AgentManager) (scenario_id : string)
    (scenario_data : pyval) :
  is_ok (create_agent_call self scenario_id scenario_data) = true
  <-> (∃ persona, scenario_content scenario_data = Ok (PStr persona))
      ∧ (∃ parameters,
           dict_get scenario_data "modelParameters" (PDict []) = Ok (PDict parameters)).
Proof.
  unfold create_agent_call. split.
  - destruct (scenario_content scenario_data) as [content|e] eqn:Hcontent;
      simpl; [|done].
    destruct content as [| | | |persona| |]; simpl; try done.
    destruct (dict_get scenario_data "model" (PStr "gpt-4o")) as [model|e];
      simpl; [|done].
    destruct (dict_get scenario_data "modelParameters" (PDict []))
      as [parameters|e]; simpl; [|done].
    destruct parameters as [| | | | | |parameters]; simpl; try done.
    intros _. split; eauto.
  - intros [[persona Hcontent] [parameters Hparams]].
    rewrite Hcontent. simpl.
    destruct scenario_data as [| | | | | |items]; try discriminate Hparams.
    simpl in *. injection Hparams as ->. simpl.
    by destruct (use_azure_ai_agents self
                 && bool_decide (is_Some (project_client self))).
Qed.

(** X5: [create_agent] never returns an agent id. It raises the
    scenario's own exception when the first message has no string as
    content or [modelParameters] is not a mapping; in every other case it
    gets to its call of a creator, which passes four arguments where the
    creator declares five parameters, and raises TypeError there, before
    the creator's body could register anything. *)
Theorem create_agent_always_raises (self : AgentManager) (d : draws)
    (scenario_id : string) (scenario_data : pyval) :
  match create_agent_call self scenario_id scenario_data with
  | Ok call =>
      create_agent self d scenario_id scenario_data = Raise TypeError
      ∧ (∃ persona, scenario_content scenario_data = Ok (PStr persona))
      ∧ (∃ parameters,
           dict_get scenario_data "modelParameters" (PDict [])
           = Ok (PDict parameters))
  | Raise e =>
      create_agent self d scenario_id scenario_data = Raise e
      ∧ ¬ ((∃ persona, scenario_content scenario_data = Ok (PStr persona))
           ∧ (∃ parameters,
                dict_get scenario_data "modelParameters" (PDict [])
                = Ok (PDict parameters)))
  end.
Proof.
  pose proof (create_agent_call_succeeds_iff self scenario_id scenario_data) as Hiff.
  unfold create_agent.
  destruct (create_agent_call self scenario_id scenario_data) as [call|e]; simpl.
  - split; [by destruct call|]. by apply Hiff.
  - split; [done|]. intros Hwf. apply Hiff in Hwf. discriminate Hwf.
Qed.

(** X6: [_create_local_agent] registers the new record under the id it
    returns, an id the address builder takes for an Ephemeral agent; the
    record holds what the creator was given; every other id keeps the
    record it had, and the manager's settings are unchanged. *)
Theorem local_agent_is_registered (self : AgentManager) (d : draws)
    (scenario_id other : string)
    (instructions model temperature max_tokens : pyval) :
  let created :=
    _create_local_agent self d scenario_id instructions model temperature max_tokens in
  created.2 = "local-agent-" +:+ hex8 d
  ∧ isEphemeral created.2 = true
  ∧ (∃ record, agents created.1 !! created.2 = Some record
       ∧ getitem record "id" = Ok (PStr created.2)
       ∧ getitem record "type" = Ok (PStr "local")
       ∧ getitem record "scenario_id" = Ok (PStr scenario_id)
       ∧ getitem record "instructions" = Ok instructions
       ∧ getitem record "model" = Ok model
       ∧ getitem record "temperature" = Ok temperature
       ∧ getitem record "max_tokens" = Ok max_tokens
       ∧ getitem record "created_at" = Ok (PStr (now_iso d)))
  ∧ (other ≠ created.2 -> agents created.1 !! other = agents self !! other)
  ∧ use_azure_ai_agents created.1 = use_azure_ai_agents self
  ∧ project_client created.1 = project_client self.
Proof.
  unfold _create_local_agent. cbn [fst snd agents use_azure_ai_agents project_client].
  split; [done|]. split; [reflexivity|]. split.
  - eexists. split; [apply lookup_insert_eq|]. by repeat split.
  - split; [|done]. intros Hother. by rewrite lookup_insert_ne.
Qed.

(** X7: two local agents that draw the same eight hex digits get the same
    id, and the second record silently replaces the first. *)
Theorem same_draw_replaces_agent (self : AgentManager) (d d' : draws)
    (scenario_id scenario_id' : string)
    (instructions model temperature max_tokens : pyval)
    (instructions' model' temperature' max_tokens' : pyval) :
  hex8 d = hex8 d' ->
  let first :=
    _create_local_agent self d scenario_id instructions model temperature max_tokens in
  let second :=
    _create_local_agent first.1 d' scenario_id' instructions' model' temperature'
      max_tokens' in
  second.2 = first.2
  ∧ agents second.1 =
    agents (_create_local_agent self d' scenario_id' instructions' model'
              temperature' max_tokens').1
  ∧ getitem (default PNone (agents second.1 !! first.2)) "instructions"
    = Ok instructions'.
Proof.
  intros Hdraw. unfold _create_local_agent. cbn [fst snd agents].
  rewrite Hdraw. split; [done|]. split.
  - by rewrite insert_insert_eq.
  - by rewrite lookup_insert_eq.
Qed.

Lemma same_draw_replaces_agent_witness :
  let self := MkAgentManager ∅ false None in
  let first := _create_local_agent self (Draws "abc12345" "t1") "s1"
                 (PStr "one") (PStr "gpt-4o") (PFloat 0.7) (PInt 2000) in
  let second := _create_local_agent first.1 (Draws "abc12345" "t2") "s2"
                  (PStr "two") (PStr "gpt-4o") (PFloat 0.7) (PInt 2000) in
  second.2 = first.2
  ∧ getitem (default PNone (agents second.1 !! first.2)) "instructions"
    = Ok (PStr "two").
Proof.
  intros self first second.
  destruct (same_draw_replaces_agent self (Draws "abc12345" "t1")
              (Draws "abc12345" "t2") "s1" "s2"
              (PStr "one") (PStr "gpt-4o") (PFloat 0.7) (PInt 2000)
              (PStr "two") (PStr "gpt-4o") (PFloat 0.7) (PInt 2000) eq_refl)
    as (Hid & _ & Hrec).
  split; [exact Hid | exact Hrec].
Defined.

(** X8: [_create_azure_agent] hands model, name, instructions and
    temperature to the provisioning client under the name
    [agent-<scenario>-<hex8>]. When the client answers with an id, the
    record registered under that id is of type azure and holds neither the
    instructions nor the [max_tokens] it was given; when the client
    raises, the creator raises the same exception. *)
Theorem azure_agent_record_omits_instructions (self : AgentManager) (d : draws)
    (scenario_id : string) (instructions model temperature max_tokens : pyval)
    (client : project_client_t) :
  project_client self = Some client ->
  match client model ("agent-" +:+ scenario_id +:+ "-" +:+ hex8 d)
               instructions temperature with
  | Ok agent_id =>
      ∃ self' record,
        _create_azure_agent self d scenario_id instructions model temperature
          max_tokens = Ok (self', agent_id)
        ∧ agents self' !! agent_id = Some record
        ∧ getitem record "type" = Ok (PStr "azure")
        ∧ getitem record "azure_agent_id" = Ok (PStr agent_id)
        ∧ getitem record "temperature" = Ok temperature
        ∧ getitem record "instructions" = Raise (KeyError "instructions")
        ∧ getitem record "max_tokens" = Raise (KeyError "max_tokens")
  | Raise e =>
      _create_azure_agent self d scenario_id instructions model temperature
        max_tokens = Raise e
  end.
Proof.
  intros Hclient. unfold _create_azure_agent. rewrite Hclient.
  destruct (client model _ instructions temperature) as [agent_id|e]; simpl;
    [|done].
  eexists _, _. split; [reflexivity|]. cbn [agents].
  split; [apply lookup_insert_eq|]. by repeat split.
Qed.

Lemma azure_agent_record_omits_instructions_witness :
  let client : project_client_t := fun _ _ _ _ => Ok "asst_xyz789" in
  ∃ self' record,
    _create_azure_agent (MkAgentManager ∅ true (Some client)) (Draws "abc12345" "now")
      "scenario2" (PStr "persona") (PStr "gpt-4o") (PFloat 0.8) (PInt 2000)
      = Ok (self', "asst_xyz789")
    ∧ agents self' !! "asst_xyz789" = Some record
    ∧ getitem record "instructions" = Raise (KeyError "instructions").
Proof.
  intros client.
  destruct (azure_agent_record_omits_instructions
              (MkAgentManager ∅ true (Some client)) (Draws "abc12345" "now")
              "scenario2" (PStr "persona") (PStr "gpt-4o") (PFloat 0.8) (PInt 2000)
              client eq_refl)
    as (self' & record & Hrun & Hrec & _ & _ & _ & Hinstr & _).
  exists self', record. repeat split; assumption.
Defined.

(** X9: the id [_create_local_agent] issues is always addressed by model:
    with a deployment name configured, the address built for it carries
    that name as [model] and no [agent-id]. *)
Theorem local_agent_is_addressed_by_model (env : handler_env)
    (self : AgentManager) (d : draws) (scenario_id : string)
    (instructions model temperature max_tokens : pyval)
    (deployment : option string) :
  config env !! "model_deployment_name" = Some deployment ->
  let created :=
    _create_local_agent self d scenario_id instructions model temperature max_tokens in
  ∃ params,
    url_params env created.2 = Ok params
    ∧ routing_of params = [("model", deployment)]
    ∧ dict_lookup params "agent-id" = None
    ∧ is_ok (_build_azure_websocket_url env created.2) = true.
Proof.
  intros Hcfg created.
  unfold _build_azure_websocket_url, url_params, config_getitem.
  change (startswith created.2 "local-agent") with true.
  rewrite Hcfg. simpl. eexists. split; [reflexivity|]. by repeat split.
Qed.

Lemma local_agent_is_addressed_by_model_witness :
  let env := HandlerEnv "res" {[ "model_deployment_name" := Some "gpt-4o" ]}
                        "0f8fad5b" (fun _ _ => true) in
  ∃ params,
    url_params env "local-agent-abc12345" = Ok params
    ∧ routing_of params = [("model", Some "gpt-4o")].
Proof.
  intros env.
  destruct (local_agent_is_addressed_by_model env (MkAgentManager ∅ false None)
              (Draws "abc12345" "now") "scenario1" (PStr "persona")
              (PStr "gpt-4o") (PFloat 0.7) (PInt 2000) (Some "gpt-4o") eq_refl)
    as (params & Hparams & Hrouting & _).
  exists params. split; assumption.
Defined.

(** X10: when [_connect_to_azure] returns, the address it returns is the
    one the builder built for the agent id, the configuration holds an API
    key, the upstream service accepted the connection for that address and
    key, and the agent is registered with a type and a temperature. *)
Theorem connected_implies_authenticated (env : handler_env)
    (agent_manager : AgentManager) (agent_id url : string) (sent : list pyval) :
  _connect_to_azure env agent_manager agent_id = Ok (url, sent) ->
  _build_azure_websocket_url env agent_id = Ok url
  ∧ (∃ api_key, config env !! "azure_openai_api_key" = Some api_key
                ∧ accepts env url api_key = true)
  ∧ (∃ record kind temperature,
       agents agent_manager !! agent_id = Some record
       ∧ getitem record "type" = Ok kind
       ∧ getitem record "temperature" = Ok temperature).
Proof.
  unfold _connect_to_azure, config_getitem, get_agent.
  destruct (_build_azure_websocket_url env agent_id) as [u|e]; simpl; [|done].
  destruct (config env !! "azure_openai_api_key") as [k|] eqn:Hkey; simpl; [|done].
  destruct (accepts env u k) eqn:Hacc; simpl; [|done].
  destruct (agents agent_manager !! agent_id) as [record|] eqn:Hrec; simpl; [|done].
  destruct (getitem record "type") as [kind|e] eqn:Hkind; simpl; [|done].
  destruct (eq_str kind "local").
  - destruct (getitem record "instructions") as [i|e]; simpl; [|done].
    destruct (getitem record "temperature") as [t|e] eqn:Ht; simpl; [|done].
    intros [= <- _]. repeat split; eauto 8.
  - destruct (getitem record "temperature") as [t|e] eqn:Ht; simpl; [|done].
    intros [= <- _]. repeat split; eauto 8.
Qed.

Lemma connected_implies_authenticated_witness :
  let env := HandlerEnv "res"
               {[ "model_deployment_name" := Some "gpt-4o";
                  "azure_openai_api_key" := Some "secret" ]}
               "0f8fad5b" (fun _ _ => true) in
  ∃ api_key, config env !! "azure_openai_api_key" = Some api_key
             ∧ api_key = Some "secret".
Proof.
  intros env.
  pose (created := _create_local_agent (MkAgentManager ∅ false None)
                     (Draws "abc12345" "now") "scenario1" (PStr "persona")
                     (PStr "gpt-4o") (PFloat 0.7) (PInt 2000)).
  destruct (connected_implies_authenticated env created.1 "local-agent-abc12345"
              _ _ eq_refl) as (_ & (api_key & Hkey & _) & _).
  exists api_key. split; [exact Hkey|].
  vm_compute in Hkey. by injection Hkey as <-.
Defined.

(** * Further properties of the frontend *)

(** ** Negotiation handling *)

(** X11: [handleWebRTCMessage] throws exactly on a message that is [null]
    or [undefined]; on every other message it returns, having made at most
    one call into the negotiation hook. *)
Theorem negotiation_handler_throws_iff_nullish (msg : jsval) :
  (handleWebRTCMessage msg = None <-> nullish msg = true)
  ∧ (∀ calls, handleWebRTCMessage msg = Some calls -> (length calls ≤ 1)%nat).
Proof.
  unfold handleWebRTCMessage, member.
  destruct (nullish msg) eqn:Hnull; simpl.
  - split; [done|]. intros calls [=].
  - split.
    + split; [|done]. repeat case_match; done.
    + intros calls. repeat case_match; intros [= <-]; simpl; lia.
Qed.

Lemma truthy_js_or3 (a b c : jsval) :
  truthy (js_or (js_or a b) c) = true ->
  truthy a = true ∨ truthy b = true ∨ truthy c = true.
Proof.
  unfold js_or. destruct (truthy a) eqn:Ha; [by left|].
  destruct (truthy b) eqn:Hb; [by right; left|].
  intros Hc. by right; right.
Qed.

(** X12: the answer handler is called only with the message itself, only
    for a message that carries a truthy [server_sdp], [sdp] or [answer],
    and never for a message of type [session.updated] or [session.update];
    a [session.updated] message leads to the setup call or to nothing. *)
Theorem answer_is_never_taken_from_session_messages (msg other : jsval)
    (calls : list rtc_call) :
  handleWebRTCMessage msg = Some calls ->
  HandleAnswer other ∈ calls ->
  other = msg
  ∧ calls = [HandleAnswer msg]
  ∧ strict_eq (prop msg "type") "session.updated" = false
  ∧ strict_eq (prop msg "type") "session.update" = false
  ∧ (truthy (prop msg "server_sdp") = true ∨ truthy (prop msg "sdp") = true
     ∨ truthy (prop msg "answer") = true).
Proof.
  unfold handleWebRTCMessage, member.
  destruct (nullish msg); simpl; [done|].
  destruct (strict_eq (prop msg "type") "session.updated") eqn:Hupdated.
  - destruct (truthy _); intros [= <-] Hin.
    + apply list_elem_of_singleton in Hin. discriminate Hin.
    + by apply not_elem_of_nil in Hin.
  - destruct (truthy (js_or _ _)) eqn:Hsdp; simpl.
    + destruct (strict_eq (prop msg "type") "session.update") eqn:Hupdate; simpl;
        intros [= <-] Hin.
      * by apply not_elem_of_nil in Hin.
      * apply list_elem_of_singleton in Hin. injection Hin as ->.
        repeat split; try done.
        by apply truthy_js_or3.
    + intros [= <-] Hin. by apply not_elem_of_nil in Hin.
Qed.

Lemma answer_is_never_taken_from_session_messages_witness :
  let msg := JObj [("type", JStr "session.avatar.connected");
                   ("server_sdp", JStr "v=0")] in
  handleWebRTCMessage msg = Some [HandleAnswer msg]
  ∧ strict_eq (prop msg "type") "session.updated" = false
  ∧ strict_eq (prop msg "type") "session.update" = false.
Proof.
  intros msg.
  destruct (answer_is_never_taken_from_session_messages msg msg [HandleAnswer msg]
              eq_refl ltac:(apply list_elem_of_singleton; reflexivity))
    as (_ & _ & Hupdated & Hupdate & _).
  split; [reflexivity|]. split; assumption.
Defined.

(** ** Start of a training *)

(** X13: a click on Start Training does nothing without a selected
    scenario or while a personalised scenario is being generated.
    Otherwise it requests one agent, for the selected scenario: when the
    request is rejected, or answers [null], the setup dialog stays as it
    was and so does the current agent; when it answers, the dialog is
    closed and the current agent is the response's [agent_id], which is
    [undefined] when the response has none. *)
Theorem start_outcome (selectedScenario : option string) (loading : bool)
    (createAgent : string -> option jsval) (st : setup_state) :
  let effects := click_start selectedScenario loading createAgent in
  match selectedScenario with
  | None | Some "" => effects = [] ∧ run_start_effects st effects = st
  | Some scenario =>
      if loading then effects = [] ∧ run_start_effects st effects = st
      else
        match createAgent scenario with
        | None =>
            effects = [ApiCreateAgent scenario; StartConsoleError]
            ∧ run_start_effects st effects = st
        | Some response =>
            if nullish response
            then effects = [ApiCreateAgent scenario; StartConsoleError]
                 ∧ run_start_effects st effects = st
            else effects = [ApiCreateAgent scenario;
                            SetCurrentAgent (prop response "agent_id");
                            SetShowSetup false]
                 ∧ run_start_effects st effects
                   = SetupState false (prop response "agent_id")
        end
  end.
Proof.
  unfold click_start, start_disabled, handleStart, member.
  destruct selectedScenario as [[|c scenario]|]; [done| |done].
  destruct loading; [done|].
  destruct (createAgent (String c scenario)) as [response|]; [|by destruct st].
  destruct (nullish response); by destruct st.
Qed.

(** ** More on the analysis trigger *)

(** X14: once [handleAnalyze] has passed its guards, the loading dialog is
    closed again when it is done, whatever the analysis request did: after
    an answer the assessment is the answer ([null] when the answer is) and
    its panel is opened; after a rejection the assessment and its panel
    are as they were. The request carries the recorder's audio first and
    the session's audio after it. *)
Theorem analysis_outcome {Audio Assessment : Type}
    (env : @analyze_env Audio Assessment) (st : @app_state Assessment)
    (scenario : string) :
  selectedScenario env = Some scenario ->
  scenario ≠ "" ->
  conversation env ≠ [] ->
  match analyzeConversation env scenario
          (join LF (map render (conversation env)))
          (audioData env ++ audio env)%list (conversation env) with
  | Some result =>
      run_effects st (handleAnalyze env) = AppState false true result
  | None =>
      run_effects st (handleAnalyze env)
      = AppState false (showAssessment st) (assessment st)
  end.
Proof.
  intros Hsel Hne Hconv. unfold handleAnalyze. rewrite Hsel.
  destruct scenario as [|c scenario]; [done|].
  rewrite bool_decide_false by (by destruct (conversation env)).
  by destruct (analyzeConversation env _ _ _ _).
Qed.

Lemma analysis_outcome_witness :
  let env := @AnalyzeEnv nat nat (Some "scenario1")
               [MkMessage "1" "user" "hello"] [1] [2] (fun _ _ _ _ => None) in
  run_effects (AppState true true (Some 7)) (handleAnalyze env)
  = AppState false true (Some 7).
Proof.
  intros env.
  exact (analysis_outcome env (AppState true true (Some 7)) "scenario1" eq_refl
           ltac:(discriminate) ltac:(discriminate)).
Defined.

(** X15: as long as the analysis request never resolves to [null],
    [handleAnalyze] keeps the assessment panel consistent: if the panel is
    open only when there is an assessment to show, this is still so after
    any run of the handler. *)
Theorem open_panel_has_an_assessment {Audio Assessment : Type}
    (env : @analyze_env Audio Assessment) (st : @app_state Assessment) :
  (∀ scenario transcript segments turns,
     analyzeConversation env scenario transcript segments turns ≠ Some None) ->
  (showAssessment st = true -> is_Some (assessment st)) ->
  let st' := run_effects st (handleAnalyze env) in
  showAssessment st' = true -> is_Some (assessment st').
Proof.
  intros Hanswer Hinv. unfold handleAnalyze.
  destruct (selectedScenario env) as [[|c scenario]|]; [done| |done].
  case_bool_decide; [done|].
  destruct (analyzeConversation env _ _ _ _) as [[report|]|] eqn:Hrun; simpl;
    [by eauto | | done].
  by apply Hanswer in Hrun.
Qed.

Lemma open_panel_has_an_assessment_witness :
  let env := @AnalyzeEnv nat nat (Some "scenario1")
               [MkMessage "1" "user" "hello"] [] []
               (fun _ _ _ _ => Some (Some 3)) in
  is_Some (assessment (run_effects (AppState false false None) (handleAnalyze env))).
Proof.
  intros env.
  exact (open_panel_has_an_assessment env (AppState false false None)
           ltac:(discriminate) ltac:(discriminate) eq_refl).
Defined.

(** ** The active scenario *)

(** X16: a generated scenario, once stored, is the active scenario
    whatever is selected; without one, the active scenario is the first
    listed scenario whose id is the selected one, and there is none when
    nothing is selected or the selected id is not listed. *)
Theorem active_scenario_is_generated_or_selected
    (selectedScenarioData : option Scenario) (scenarios : list Scenario)
    (selectedScenario : option string) :
  match activeScenario selectedScenarioData scenarios selectedScenario with
  | Some s =>
      selectedScenarioData = Some s
      ∨ (selectedScenarioData = None
         ∧ selectedScenario = Some (scenario_id s)
         ∧ ∃ before after,
             scenarios = (before ++ s :: after)%list
             ∧ Forall (fun s' => selectedScenario ≠ Some (scenario_id s')) before)
  | None =>
      selectedScenarioData = None
      ∧ Forall (fun s' => selectedScenario ≠ Some (scenario_id s')) scenarios
  end.
Proof.
  unfold activeScenario.
  destruct selectedScenarioData as [data|]; [by left|].
  assert (∀ s', is_selected selectedScenario s' = true
                <-> selectedScenario = Some (scenario_id s')) as Hsel.
  { intros s'. unfold is_selected. destruct selectedScenario as [sel|]; [|done].
    rewrite String.eqb_eq. split; [by intros -> | by intros [= ->]]. }
  induction scenarios as [|s scenarios IH]; simpl; [done|].
  destruct (is_selected selectedScenario s) eqn:Hs.
  - right. split; [done|]. split; [by apply Hsel|].
    exists [], scenarios. by split.
  - assert (selectedScenario ≠ Some (scenario_id s)) as Hne
      by (intros H%Hsel; congruence).
    destruct (List.find _ scenarios) as [found|].
    + destruct IH as [IH|(_ & Hid & before & after & -> & Hbefore)]; [done|].
      right. split; [done|]. split; [done|].
      exists (s :: before), after. split; [done|]. by constructor.
    + destruct IH as [_ IH]. split; [done|]. by constructor.
Qed.

(** ** The message list *)

(** X17: the message area shows the placeholder exactly for an empty list;
    otherwise it shows one bubble per message, the newest first: the
    message at position [i] is the bubble at position [n - 1 - i], in the
    user style exactly when its role is [user], and the bubbles' keys are
    distinct when the messages' ids are. *)
Theorem messages_are_shown_newest_first (msgs : list Message) :
  match render_messages msgs with
  | Placeholder => msgs = []
  | Bubbles bs =>
      msgs ≠ []
      ∧ length bs = length msgs
      ∧ (∀ i m, msgs !! i = Some m ->
           bs !! (length msgs - 1 - i)%nat = Some (bubble_of m)
           ∧ (bubble_class (bubble_of m) = userMessage <-> role m = "user"))
      ∧ (NoDup (id <$> msgs) -> NoDup (bubble_key <$> bs))
  end.
Proof.
  unfold render_messages. case_bool_decide as Hlen.
  - by destruct msgs.
  - split; [by intros ->|].
    split; [by rewrite length_fmap, length_reverse|]. split.
    + intros i m Hi. split.
      * pose proof (lookup_lt_Some _ _ _ Hi) as Hlt.
        rewrite list_lookup_fmap, reverse_lookup by lia.
        replace (length msgs - S (length msgs - 1 - i))%nat with i by lia.
        by rewrite Hi.
      * unfold bubble_of. cbn [bubble_class].
        destruct (String.eqb (role m) "user") eqn:Hrole.
        -- apply String.eqb_eq in Hrole. done.
        -- apply String.eqb_neq in Hrole. done.
    + intros Hnodup. rewrite <- list_fmap_compose.
      change (bubble_key ∘ bubble_of) with id.
      rewrite fmap_reverse. by rewrite reverse_Permutation.
Qed.

(** ** The scenario list *)

Lemma List_filter_sublist {A : Type} (f : A -> bool) (l : list A) :
  List.filter f l `sublist_of` l.
Proof.
  induction l as [|x l IH]; simpl; [done|].
  destruct (f x); [by apply sublist_skip | by apply sublist_cons].
Qed.

Lemma language_tab_sublist (tag : string) (scenarios : list Scenario) :
  let shown := List.filter (fun s => negb (is_graph_scenario s)
                                     && includes (name s) tag) scenarios in
  shown `sublist_of` scenarios
  ∧ Forall (fun s => is_graph_scenario s = false
                     ∧ includes (name s) tag = true) shown.
Proof.
  split; [apply List_filter_sublist|].
  apply Forall_forall. intros s Hin.
  apply list_elem_of_In, List.filter_In in Hin as [_ Hf].
  apply andb_true_iff in Hf as [Hg Hn]. by apply negb_true_iff in Hg.
Qed.

(** X18: under every tab but the personalised one, the cards shown are
    scenarios of the list, in the order of the list, none of them a graph
    scenario. *)
Theorem language_tabs_show_listed_scenarios (selectedTab : string)
    (generated : option Scenario) (scenarios : list Scenario) :
  selectedTab ≠ "personalized" ->
  getCurrentScenarios selectedTab generated scenarios `sublist_of` scenarios
  ∧ Forall (fun s => is_graph_scenario s = false)
           (getCurrentScenarios selectedTab generated scenarios).
Proof.
  intros Htab. unfold getCurrentScenarios, germanScenarios, frenchScenarios,
    englishScenarios.
  destruct (String.eqb selectedTab "german");
    [|destruct (String.eqb selectedTab "french");
      [|destruct (String.eqb selectedTab "english")]].
  1-3: match goal with
       | |- context [includes _ ?tag] =>
           destruct (language_tab_sublist tag scenarios) as [Hsub Hall]
       end; split; [exact Hsub|];
       eapply Forall_impl; [exact Hall|]; by intros s [? _].
  destruct (String.eqb selectedTab "personalized") eqn:Hp.
  - by apply String.eqb_eq in Hp.
  - split; [apply sublist_nil_l | constructor].
Qed.

Lemma language_tabs_show_listed_scenarios_witness :
  let de := MkScenario "s1" "Premiums (DE)" "d" false false in
  let graph := MkScenario "g" "Graph (DE)" "d" true false in
  getCurrentScenarios "german" None [graph; de] `sublist_of` [graph; de]
  ∧ getCurrentScenarios "german" None [graph; de] = [de].
Proof.
  intros de graph. split; [|reflexivity].
  exact (proj1 (language_tabs_show_listed_scenarios "german" None [graph; de]
                  ltac:(discriminate))).
Defined.

(** X19: a listed scenario that is not a graph scenario and whose name
    holds none of the markers (DE), (FR), (EN) is shown under no tab at
    all, as long as no generated scenario equal to it is stored. *)
Theorem unmarked_scenario_is_never_shown (selectedTab : string)
    (scenarios : list Scenario) (s : Scenario) :
  is_graph_scenario s = false ->
  includes (name s) "(DE)" = false ->
  includes (name s) "(FR)" = false ->
  includes (name s) "(EN)" = false ->
  s ∉ getCurrentScenarios selectedTab None scenarios.
Proof.
  intros Hgraph Hde Hfr Hen Hin. unfold getCurrentScenarios in Hin.
  assert (∀ tag, includes (name s) tag = false ->
            s ∉ List.filter (fun s => negb (is_graph_scenario s)
                                      && includes (name s) tag) scenarios) as Htab.
  { intros tag Htag Hs. apply list_elem_of_In, List.filter_In in Hs as [_ Hf].
    apply andb_true_iff in Hf as [_ Hf]. congruence. }
  destruct (String.eqb selectedTab "german"); [exact (Htab _ Hde Hin)|].
  destruct (String.eqb selectedTab "french"); [exact (Htab _ Hfr Hin)|].
  destruct (String.eqb selectedTab "english"); [exact (Htab _ Hen Hin)|].
  destruct (String.eqb selectedTab "personalized");
    [|by apply not_elem_of_nil in Hin].
  unfold graphScenario in Hin.
  destruct (List.find is_graph_scenario scenarios) as [g|] eqn:Hfind;
    [|by apply not_elem_of_nil in Hin].
  apply list_elem_of_singleton in Hin as ->.
  apply List.find_some in Hfind as [_ Hg]. congruence.
Qed.

Lemma unmarked_scenario_is_never_shown_witness :
  let s := MkScenario "s9" "Objections" "d" false false in
  (s ∈ [s])
  ∧ (s ∉ getCurrentScenarios "german" None [s])
  ∧ (s ∉ getCurrentScenarios "personalized" None [s]).
Proof.
  intros s. split; [apply list_elem_of_singleton; reflexivity|]. split.
  - exact (unmarked_scenario_is_never_shown "german" [s] s
             eq_refl eq_refl eq_refl eq_refl).
  - exact (unmarked_scenario_is_never_shown "personalized" [s] s
             eq_refl eq_refl eq_refl eq_refl).
Defined.

Lemma before_dot_no_dot (d : string) : count_char "." (before_dot d) = 0.
Proof.
  induction d as [|c d IH]; [done|]. simpl.
  destruct (Ascii.eqb c ".") eqn:Hc; [done|]. simpl. by rewrite Hc.
Qed.

Lemma before_dot_split (d : string) :
  (∃ rest, d = before_dot d +:+ "." +:+ rest) ∨ d = before_dot d.
Proof.
  induction d as [|c d IH]; [by right|]. simpl.
  destruct (Ascii.eqb c ".") eqn:Hc.
  - apply Ascii.eqb_eq in Hc as ->. left. by exists d.
  - destruct IH as [[rest Hrest]|Hsame].
    + left. exists rest.
      change (String c d = String c (before_dot d +:+ "." +:+ rest)).
      by rewrite <- Hrest.
    + right. by rewrite <- Hsame.
Qed.

(** X20: the personalised scenario keeps the id of the generated one,
    is named Personalized Scenario, and its description is the generated
    description up to its first full stop, that stop included: it holds
    exactly one full stop, and it is either a prefix of the generated
    description or, when that has no full stop, the whole of it with one
    added. *)
Theorem personalized_description_is_first_sentence (generated : Scenario) :
  let personalized := personalizedScenario generated in
  scenario_id personalized = scenario_id generated
  ∧ name personalized = "Personalized Scenario"
  ∧ count_char "." (description personalized) = 1
  ∧ ((∃ rest, description generated = description personalized +:+ rest)
     ∨ description personalized = description generated +:+ ".").
Proof.
  unfold personalizedScenario. cbn [scenario_id name description].
  split; [done|]. split; [done|]. split.
  - rewrite count_char_append, before_dot_no_dot. done.
  - destruct (before_dot_split (description generated)) as [[rest Hrest]|Hsame].
    + left. exists rest. rewrite append_assoc. exact Hrest.
    + right. by rewrite <- Hsame.
Qed.

(** X21: a click on a graph scenario that has not been generated yet
    requests a generated scenario and, whatever the answer, ends with the
    loading flag off: after an answer the personalised scenario is stored
    and selected, after a rejection nothing is stored and the selection is
    as it was. A click on any other scenario only selects it, and makes no
    request. *)
Theorem scenario_click_outcome (generate : option Scenario) (has_callback : bool)
    (scenario : Scenario) (st : list_state) :
  let effects := handleScenarioClick generate has_callback scenario in
  let st' := run_list_effects st effects in
  if is_graph_scenario scenario && negb (generated_from_graph scenario)
  then
    match generate with
    | Some generated =>
        st' = ListState false (Some (personalizedScenario generated))
                        (Some (scenario_id generated))
    | None => st' = ListState false (generatedScenario st) (selected st)
    end
  else
    effects = [OnSelect (scenario_id scenario)]
    ∧ st' = ListState (loadingGraph st) (generatedScenario st)
                      (Some (scenario_id scenario)).
Proof.
  unfold handleScenarioClick.
  destruct (is_graph_scenario scenario && negb (generated_from_graph scenario));
    [|done].
  destruct generate as [generated|]; [|done].
  by destruct has_callback.
Qed.

(** X22: while a personalised scenario is being generated, every card
    that can be clicked only selects its scenario: a graph scenario that
    would start another generation is shown as the spinner instead. *)
Theorem no_second_generation_while_loading (selectedScenario : option string)
    (scenario shown : Scenario) (key : string) (is_sel : bool)
    (generate : option Scenario) (has_callback : bool) :
  renderScenarioCard selectedScenario true scenario = ScenarioCard key is_sel shown ->
  shown = scenario
  ∧ key = scenario_id scenario
  ∧ handleScenarioClick generate has_callback shown = [OnSelect (scenario_id shown)].
Proof.
  unfold renderScenarioCard, handleScenarioClick.
  rewrite andb_true_r.
  destruct (is_graph_scenario scenario && negb (generated_from_graph scenario))
    eqn:Hgraph; [done|].
  intros [= <- _ <-]. by rewrite Hgraph.
Qed.

Lemma no_second_generation_while_loading_witness :
  let s := MkScenario "s1" "Premiums (DE)" "d" false false in
  renderScenarioCard (Some "s1") true s = ScenarioCard "s1" true s
  ∧ handleScenarioClick None true s = [OnSelect "s1"].
Proof.
  intros s. split; [reflexivity|].
  exact (proj2 (proj2 (no_second_generation_while_loading (Some "s1") s s "s1"
                         true None true eq_refl))).
Defined.

(** ** Score badges *)

(** X23: the colour and the label of the overall badge always agree:
    success with Great, warning with Good, danger with Needs Work, for
    every score, NaN included. *)
Theorem badge_colour_matches_label (score : float) :
  match getScoreColor score with
  | success => overall_label score = "Great"
  | warning => overall_label score = "Good"
  | danger => overall_label score = "Needs Work"
  end.
Proof.
  unfold getScoreColor, overall_label.
  destruct (PrimFloat.leb 80 score); [done|].
  by destruct (PrimFloat.leb 60 score).
Qed.

(** X24: at most twelve word badges are shown: one for each of the first
    twelve words, in their order, keyed by position and coloured by the
    word's accuracy; a thirteenth word and those after it get none. *)
Theorem word_badges_are_the_first_twelve (words : list word_result) :
  length (word_badges words) = min 12 (length words)
  ∧ (∀ i w, (i < 12)%nat -> words !! i = Some w ->
       word_badges words !! i = Some (i, getScoreColor (accuracy w), w))
  ∧ (∀ i, (12 ≤ i)%nat -> word_badges words !! i = None).
Proof.
  unfold word_badges. split; [by rewrite length_imap, length_take|]. split.
  - intros i w Hi Hw.
    by rewrite list_lookup_imap, lookup_take_lt, Hw.
  - intros i Hi.
    by rewrite list_lookup_imap, lookup_take_ge.
Qed.
